(** * vuefire, Realtime Database composables ([src/database/index.ts])

    A shallow embedding of the subscription lifecycle controller
    [_useDatabaseRef], of its entry points [useList] and [useObject], of the
    mutation primitives [ops] and of the registry operation [internalUnbind],
    followed by the properties of the module that were checked against it.

    Conventions.  JavaScript objects that are shared and mutated (reactive
    cells) live in a heap of cells addressed by locations; closures of
    [_useDatabaseRef] become functions on a [System] record that carries the
    closure variables next to the heap.  A call that raises a [TypeError]
    returns [None]; [internalUnbind], whose caller keeps the registry when
    the call raises, returns the registry and the world with a
    [Completion]. *)

From Stdlib Require Import ZArith Lia.
From stdpp Require Import base option list gmap strings fin_maps.

(** ** Mutation primitives (lines 27-31) *)

Module Ops.

Section Splice.
Context {A : Type}.
Local Open Scope Z_scope.

(** [Array.prototype.splice(start, deleteCount, ...items)] on an integer
    [start]: a negative [start] counts from the end, a [start] past the end
    is the end, and [deleteCount] is clamped to what is left.  The source
    mutates [array] in place; here the new content is returned. *)
Definition splice (array : list A) (start deleteCount : Z) (items : list A)
  : list A :=
  let len := Z.of_nat (length array) in
  let actualStart :=
    if start <? 0 then Z.max (len + start) 0 else Z.min start len in
  let actualDeleteCount := Z.min (Z.max deleteCount 0) (len - actualStart) in
  take (Z.to_nat actualStart) array ++ items
    ++ drop (Z.to_nat (actualStart + actualDeleteCount)) array.

(** [add: (array, index, data) => array.splice(index, 0, data)] *)
Definition add (array : list A) (index : Z) (data : A) : list A :=
  splice array index 0 [data].

(** [remove: (array, index) => array.splice(index, 1)] *)
Definition remove (array : list A) (index : Z) : list A :=
  splice array index 1 [].

End Splice.

End Ops.


(** ** Data model *)

Abbreviation loc := nat.

(** A [DatabaseReference] or [Query]: an object of the client library, which
    the framework compares by identity. *)
Abbreviation Source := nat.

(** Identity of a promise, and of an unbind procedure returned by a binder. *)
Abbreviation PromiseId := nat.
Abbreviation UnbindType := nat.

(** The values a reactive cell can hold. *)
#[warnings="-register-all"] Inductive value :=
| VUndefined
| VNull
| VBool (b : bool)
| VNum (n : Z)
| VStr (s : string)
| VArray (items : list value)
| VObject (fields : list (string * value))
| VError (message : string)
| VPromise (p : PromiseId).

(** [Array.isArray] *)
Definition isArray (v : value) : bool :=
  match v with VArray _ => true | _ => false end.

(** What a getter installed by [Object.defineProperties] returns: a reactive
    cell, or the closure [unbind] of lines 120-123. *)
Inductive Getter :=
| GetCell (l : loc)
| GetUnbind.

(** A reactive cell ([Ref]): its [value] and the accessor properties defined
    on the object itself. *)
Record RefObj := {
  ref_value : value;
  ref_props : gmap string Getter;
}.

(** An optional property of an options object: not there, there and
    [undefined], or there with a value. *)
Inductive OptProp (A : Type) :=
| PropAbsent
| PropUndefined
| PropValue (a : A).
Arguments PropAbsent {A}.
Arguments PropUndefined {A}.
Arguments PropValue {A} a.

(** [_DatabaseRefOptions['reset']] *)
Inductive ResetOption :=
| ResetUndefined
| ResetBool (b : bool)
| ResetTo (v : value).

(** [UseDatabaseRefOptions].  Reading [initialValue] or [reset] gives
    [undefined] when the property is missing, so these two are kept as what
    reading them gives. *)
Record UseDatabaseRefOptions := {
  target : OptProp loc;
  initialValue : value;
  reset : ResetOption;
}.

(** The options object [{}]. *)
Definition noOptions : UseDatabaseRefOptions :=
  {| target := PropAbsent; initialValue := VUndefined; reset := ResetUndefined |}.

(** [_MaybeRef<DatabaseReference | Query>]: a plain reference, or a reactive
    cell, given by the reference it holds now. *)
Inductive MaybeRef :=
| Plain (r : Source)
| Observable (r : Source).

Definition isRef (reference : MaybeRef) : bool :=
  match reference with Plain _ => false | Observable _ => true end.

Definition unref (reference : MaybeRef) : Source :=
  match reference with Plain r => r | Observable r => r end.

Inductive PromiseState :=
| Pending
| Fulfilled (v : value)
| Rejected (reason : value).

Inductive BinderKind := AsArray | AsObject.

(** A listener attached by a binder. *)
Record Subscription := {
  sub_kind : BinderKind;
  sub_target : loc;
  sub_source : Source;
  sub_promise : PromiseId;
  sub_live : bool;
}.

(** What [stopWatcher] is: [noop], or the stop function of a watcher that is
    running or has been stopped. *)
Inductive Watcher := NoWatcher | Watching | Stopped.

(** What surrounds a controller: the heap of reactive cells, the promises, the
    listeners the binders attached, and the calls made to unbind procedures,
    oldest first. *)
Record World := {
  heap : gmap loc RefObj;
  promises : list PromiseState;
  subscriptions : list Subscription;
  unbindCalls : list (UnbindType * ResetOption);
}.

(** The variables of one call of [_useDatabaseRef] (lines 43-51 and 102),
    with the state of the owning scope. *)
Record Controller := {
  reference : MaybeRef;
  options : UseDatabaseRefOptions;
  _unbind : option UnbindType;
  data : loc;
  error : loc;
  pending : loc;
  promise : loc;
  createdPromises : gset PromiseId;
  hasCurrentScope : bool;
  scopeActive : bool;
  stopWatcher : Watcher;
}.

Record System := {
  ctl : Controller;
  env : World;
}.

(** ** The heap *)

Definition readValue (l : loc) (h : gmap loc RefObj) : value :=
  match h !! l with Some o => ref_value o | None => VUndefined end.

Definition setValue (v : value) (o : RefObj) : RefObj :=
  {| ref_value := v; ref_props := ref_props o |}.

(** [cell.value = v] *)
Definition writeValue (l : loc) (v : value) (h : gmap loc RefObj)
  : gmap loc RefObj :=
  alter (setValue v) l h.

(** A cell as [ref] makes it. *)
Definition plainCell (v : value) : RefObj :=
  {| ref_value := v; ref_props := ∅ |}.

(** [ref(v)] and [shallowRef(v)]: a new cell, at a location not in use. *)
Definition ref (v : value) (h : gmap loc RefObj) : loc * gmap loc RefObj :=
  let l := fresh (dom h) in
  (l, <[l := plainCell v]> h).

(** [handle.name]: the getter behind an accessor property of a cell. *)
Definition getProp (l : loc) (name : string) (h : gmap loc RefObj)
  : option Getter :=
  o ← h !! l; ref_props o !! name.

(** One property of [Object.defineProperties].  The descriptors of lines
    126-131 give no [configurable], so a property defined once cannot be
    defined again with another getter: that raises a [TypeError]. *)
Definition defineProperty (o : RefObj) (np : string * Getter) : option RefObj :=
  match ref_props o !! np.1 with
  | Some _ => None
  | None => Some {| ref_value := ref_value o;
                    ref_props := <[np.1 := np.2]> (ref_props o) |}
  end.

Fixpoint definePropertiesOn (o : RefObj) (props : list (string * Getter))
  : option RefObj :=
  match props with
  | [] => Some o
  | np :: rest => o' ← defineProperty o np; definePropertiesOn o' rest
  end.

(** [Object.defineProperties(cell, props)]; the cell itself is changed, and
    it is what the call returns. *)
Definition defineProperties (l : loc) (props : list (string * Getter))
    (h : gmap loc RefObj) : option (gmap loc RefObj) :=
  o ← h !! l;
  o' ← definePropertiesOn o props;
  Some (<[l := o']> h).

(** ** Record updates *)

Definition withHeap (h : gmap loc RefObj) (w : World) : World :=
  {| heap := h; promises := promises w; subscriptions := subscriptions w;
     unbindCalls := unbindCalls w |}.

Definition withPromises (ps : list PromiseState) (w : World) : World :=
  {| heap := heap w; promises := ps; subscriptions := subscriptions w;
     unbindCalls := unbindCalls w |}.

Definition withSubscriptions (subs : list Subscription) (w : World) : World :=
  {| heap := heap w; promises := promises w; subscriptions := subs;
     unbindCalls := unbindCalls w |}.

Definition withUnbindCalls (calls : list (UnbindType * ResetOption))
    (w : World) : World :=
  {| heap := heap w; promises := promises w; subscriptions := subscriptions w;
     unbindCalls := calls |}.

Definition withReference (r : MaybeRef) (c : Controller) : Controller :=
  {| reference := r; options := options c; _unbind := _unbind c;
     data := data c; error := error c; pending := pending c;
     promise := promise c; createdPromises := createdPromises c;
     hasCurrentScope := hasCurrentScope c; scopeActive := scopeActive c;
     stopWatcher := stopWatcher c |}.

Definition withBound (h : UnbindType) (p : PromiseId) (c : Controller)
  : Controller :=
  {| reference := reference c; options := options c; _unbind := Some h;
     data := data c; error := error c; pending := pending c;
     promise := promise c; createdPromises := {[p]} ∪ createdPromises c;
     hasCurrentScope := hasCurrentScope c; scopeActive := scopeActive c;
     stopWatcher := stopWatcher c |}.

Definition withScopeActive (b : bool) (c : Controller) : Controller :=
  {| reference := reference c; options := options c; _unbind := _unbind c;
     data := data c; error := error c; pending := pending c;
     promise := promise c; createdPromises := createdPromises c;
     hasCurrentScope := hasCurrentScope c; scopeActive := b;
     stopWatcher := stopWatcher c |}.

Definition withStopWatcher (w : Watcher) (c : Controller) : Controller :=
  {| reference := reference c; options := options c; _unbind := _unbind c;
     data := data c; error := error c; pending := pending c;
     promise := promise c; createdPromises := createdPromises c;
     hasCurrentScope := hasCurrentScope c; scopeActive := scopeActive c;
     stopWatcher := w |}.

(** ** The binders *)

Definition setLive (b : bool) (sub : Subscription) : Subscription :=
  {| sub_kind := sub_kind sub; sub_target := sub_target sub;
     sub_source := sub_source sub; sub_promise := sub_promise sub;
     sub_live := b |}.

(** Modelled from the spec: [bindAsArray] and [bindAsObject] of [./subscribe]
    are outside the module.  A binder, called with the container, the source,
    the [resolve] and [reject] of a promise, the [ops] and the options,
    attaches a live listener to the source and returns an unbind procedure.
    Its listener writes to the container when the source changes
    ([remoteChange] below) and settles the promise at the first sync
    ([resolvePromise] and [rejectPromise] below). *)
Definition bind (kind : BinderKind) (container : loc) (source : Source)
    (p : PromiseId) (w : World) : UnbindType * World :=
  (length (subscriptions w),
   withSubscriptions
     (subscriptions w ++
        [{| sub_kind := kind; sub_target := container; sub_source := source;
            sub_promise := p; sub_live := true |}]) w).

Definition bindAsArray := bind AsArray.
Definition bindAsObject := bind AsObject.

(** Modelled from the spec: what a reset policy makes of the container of a
    binder: [false] leaves it, a given value is stored, and the default
    stores the empty sequence or the absent value. *)
Definition resetValue (kind : BinderKind) (policy : ResetOption)
  : option value :=
  match policy with
  | ResetBool false => None
  | ResetTo v => Some v
  | ResetUndefined | ResetBool true =>
      Some (match kind with AsArray => VArray [] | AsObject => VUndefined end)
  end.

(** Modelled from the spec: calling the unbind procedure [h] with a reset
    policy detaches the listener and applies the policy to its container.
    The call is appended to [unbindCalls]. *)
Definition callUnbind (h : UnbindType) (policy : ResetOption) (w : World)
  : World :=
  let w1 := withUnbindCalls (unbindCalls w ++ [(h, policy)]) w in
  match subscriptions w !! h with
  | None => w1
  | Some sub =>
      let w2 := withSubscriptions (<[h := setLive false sub]> (subscriptions w)) w1 in
      match resetValue (sub_kind sub) policy with
      | None => w2
      | Some v => withHeap (writeValue (sub_target sub) v (heap w2)) w2
      end
  end.

(** Modelled from the spec: the source of the listener [h] changes, and the
    binder stores the new content [v] of the container through the [ops];
    a detached listener does nothing. *)
Definition remoteChange (h : UnbindType) (v : value) (w : World) : World :=
  match subscriptions w !! h with
  | Some sub =>
      if sub_live sub
      then withHeap (writeValue (sub_target sub) v (heap w)) w
      else w
  | None => w
  end.

(** The listeners that are attached. *)
Definition liveSubscriptions (w : World) : list Subscription :=
  filter (λ sub, sub_live sub = true) (subscriptions w).

(** ** The controller (lines 39-133) *)

(** Lines 53-100.  The executor of the promise runs at once: it reads the
    reference, picks the binder by the shape of what the container holds now,
    and stores the unbind procedure in [_unbind]. *)
Definition bindDatabaseRef (s : System) : System :=
  let c := ctl s in
  let w := env s in
  let p := length (promises w) in
  let w := withPromises (promises w ++ [Pending]) w in
  let referenceValue := unref (reference c) in
  let '(h, w) :=
    if isArray (readValue (data c) (heap w))
    then bindAsArray (data c) referenceValue p w
    else bindAsObject (data c) referenceValue p w in
  let c := withBound h p c in
  let w := withHeap (writeValue (promise c) (VPromise p) (heap w)) w in
  {| ctl := c; env := w |}.

(** The reactions of lines 89-93, which every promise made by
    [bindDatabaseRef] carries: [catch] stores the reason, [finally] clears
    [pending]. *)
Definition onRejected (reason : value) (s : System) : System :=
  {| ctl := ctl s;
     env := withHeap (writeValue (error (ctl s)) reason (heap (env s))) (env s) |}.

Definition onFinally (s : System) : System :=
  {| ctl := ctl s;
     env := withHeap (writeValue (pending (ctl s)) (VBool false) (heap (env s)))
              (env s) |}.

Definition settle (p : PromiseId) (st : PromiseState) (s : System) : System :=
  {| ctl := ctl s;
     env := withPromises (<[p := st]> (promises (env s))) (env s) |}.

(** A binder calls [resolve(v)] of promise [p].  A promise settles once. *)
Definition resolvePromise (p : PromiseId) (v : value) (s : System) : System :=
  match promises (env s) !! p with
  | Some Pending => onFinally (settle p (Fulfilled v) s)
  | _ => s
  end.

(** A binder calls [reject(reason)] of promise [p]. *)
Definition rejectPromise (p : PromiseId) (reason : value) (s : System)
  : System :=
  match promises (env s) !! p with
  | Some Pending => onFinally (onRejected reason (settle p (Rejected reason) s))
  | _ => s
  end.

(** [_unbind(options.reset)]; calling [_unbind] before it is assigned raises. *)
Definition callCurrentUnbind (s : System) : option System :=
  h ← _unbind (ctl s);
  Some {| ctl := ctl s; env := callUnbind h (reset (options (ctl s))) (env s) |}.

(** [stopWatcher()] *)
Definition callStopWatcher (s : System) : System :=
  match stopWatcher (ctl s) with
  | Watching => {| ctl := withStopWatcher Stopped (ctl s); env := env s |}
  | NoWatcher | Stopped => s
  end.

(** Lines 120-123 *)
Definition unbind (s : System) : option System :=
  callCurrentUnbind (callStopWatcher s).

(** The callback given to [onScopeDispose], lines 110-116 *)
Definition onScopeDisposeCallback (s : System) : option System :=
  callCurrentUnbind s.

(** The scope stops the effects recorded in it: here the watcher, when there
    is one. *)
Definition stopEffects (s : System) : System :=
  match stopWatcher (ctl s) with
  | Watching => {| ctl := withStopWatcher Stopped (ctl s); env := env s |}
  | NoWatcher | Stopped => s
  end.

(** The framework ends the owning scope.  An effect scope records the
    effects created while it is the current scope, and when it ends it first
    stops them, then runs the callbacks registered with [onScopeDispose].
    The watcher of line 104 is created in the call in which
    [getCurrentScope()] gave the scope, so it is one of these effects.  A
    scope ends once. *)
Definition scopeStop (s : System) : option System :=
  if hasCurrentScope (ctl s) && scopeActive (ctl s)
  then onScopeDisposeCallback
         (stopEffects {| ctl := withScopeActive false (ctl s); env := env s |})
  else Some s.

(** The reference cell is assigned [r], and the watchers are flushed before
    anything else happens.  The cell triggers its watchers when the new
    reference is not the one it held, and a running watcher then calls
    [bindDatabaseRef].  A plain reference is no cell: nothing observes it. *)
Definition setReference (r : Source) (s : System) : System :=
  match reference (ctl s) with
  | Plain _ => s
  | Observable r0 =>
      if decide (r = r0) then s
      else
        let s1 := {| ctl := withReference (Observable r) (ctl s); env := env s |} in
        match stopWatcher (ctl s) with
        | Watching => bindDatabaseRef s1
        | NoWatcher | Stopped => s1
        end
  end.

(** The accessor properties of lines 126-131, as written. *)
Definition handleProps (c : Controller) : list (string * Getter) :=
  [ ("data", GetCell (data c));
    ("error", GetCell (error c));
    ("pending", GetCell (error c));
    ("promise", GetCell (promise c));
    ("unbind", GetUnbind) ].

(** Lines 45-51 and 102: the cells and the variables before the first bind.
    [scope] tells whether [getCurrentScope()] gives a scope, [h0] is the heap
    at the call. *)
Definition setup (reference : MaybeRef) (options : UseDatabaseRefOptions)
    (scope : bool) (h0 : gmap loc RefObj) : System :=
  let '(data, h) :=
    match target options with
    | PropValue t => (t, h0)
    | PropAbsent | PropUndefined => ref (initialValue options) h0
    end in
  let '(error, h) := ref VUndefined h in
  let '(pending, h) := ref (VBool true) h in
  let '(promise, h) := ref VUndefined h in
  {| ctl := {| reference := reference; options := options; _unbind := None;
               data := data; error := error; pending := pending;
               promise := promise; createdPromises := ∅;
               hasCurrentScope := scope; scopeActive := scope;
               stopWatcher := NoWatcher |};
     env := {| heap := h; promises := []; subscriptions := [];
               unbindCalls := [] |} |}.

(** [stopWatcher = watch(reference, bindDatabaseRef, { immediate: true })]:
    the callback runs once at the call, and the watcher is running. *)
Definition watchImmediate (s : System) : System :=
  let s := bindDatabaseRef s in
  {| ctl := withStopWatcher Watching (ctl s); env := env s |}.

(** Lines 39-133.  The result is the handle with the system the call
    leaves. *)
Definition _useDatabaseRef (reference : MaybeRef)
    (options : UseDatabaseRefOptions) (scope : bool) (h0 : gmap loc RefObj)
  : option (loc * System) :=
  let s := setup reference options scope h0 in
  let s := if isRef reference then watchImmediate s else bindDatabaseRef s in
  h ← defineProperties (data (ctl s)) (handleProps (ctl s)) (heap (env s));
  Some (data (ctl s), {| ctl := ctl s; env := withHeap h (env s) |}).

(** ** The registry (lines 135-147) *)

(** How a call ends: it returns, or it raises a [TypeError]. *)
Inductive Completion :=
| Returns
| Raises.

(** [unbinds[key]] is a property read: when the record has no entry of its
    own for [key], the read goes on to the prototype of the record.  A record
    is an ordinary object ([Record<string, UnbindType>]), so that its
    prototype is [Object.prototype].  What line 141 then calls, with the
    record as [this] and [reset] as the only argument: *)
Inductive Inherited :=
| ProtoObject      (* the prototype itself: an object, not a function *)
| DefineAccessor   (* raises: its second argument is not a function *)
| ToLocaleString   (* returns [this.toString()] *)
| Harmless.        (* returns; the record and the world stay as they are *)

(** The properties of [Object.prototype] that have a string for name. *)
Definition objectPrototype : gmap string Inherited :=
  list_to_map
    [ ("constructor", Harmless);
      ("__defineGetter__", DefineAccessor);
      ("__defineSetter__", DefineAccessor);
      ("hasOwnProperty", Harmless);
      ("__lookupGetter__", Harmless);
      ("__lookupSetter__", Harmless);
      ("isPrototypeOf", Harmless);
      ("propertyIsEnumerable", Harmless);
      ("toString", Harmless);
      ("valueOf", Harmless);
      ("__proto__", ProtoObject);
      ("toLocaleString", ToLocaleString) ].

(** [unbinds] is [undefined] or a record of unbind procedures, which are
    truthy, as the inherited properties are.  The entries of the record are
    its own properties, made by assignment; [delete] removes an own property
    and does nothing for an inherited one.  The record is changed in place;
    here it is returned, with the world the call of the procedure leaves and
    the way the call ends. *)
Definition internalUnbind (key : string)
    (unbinds : option (gmap string UnbindType)) (reset : ResetOption)
    (w : World) : option (gmap string UnbindType) * World * Completion :=
  match unbinds with
  | Some record =>
      match record !! key with
      | Some h => (Some (delete key record), callUnbind h reset w, Returns)
      | None =>
          match objectPrototype !! key with
          | Some ProtoObject | Some DefineAccessor => (unbinds, w, Raises)
          | Some ToLocaleString =>
              match record !! "toString" with
              | Some h => (unbinds, callUnbind h ResetUndefined w, Returns)
              | None => (unbinds, w, Returns)
              end
          | Some Harmless | None => (unbinds, w, Returns)
          end
      end
  | None => (None, w, Returns)
  end.

(** ** Entry points (lines 158-179) *)

(** [{ target: data, ...options }]: a [target] property of [options], even an
    [undefined] one, replaces [data]. *)
Definition spreadOver (data : loc) (options : option UseDatabaseRefOptions)
  : UseDatabaseRefOptions :=
  match options with
  | None =>
      {| target := PropValue data; initialValue := VUndefined;
         reset := ResetUndefined |}
  | Some o =>
      {| target := match target o with
                   | PropAbsent => PropValue data
                   | given => given
                   end;
         initialValue := initialValue o; reset := reset o |}
  end.

Definition useList (reference : MaybeRef)
    (options : option UseDatabaseRefOptions) (scope : bool)
    (h0 : gmap loc RefObj) : option (loc * System) :=
  let '(data, h) := ref (VArray []) h0 in
  _useDatabaseRef reference (spreadOver data options) scope h.

Definition useObject (reference : MaybeRef)
    (options : option UseDatabaseRefOptions) (scope : bool)
    (h0 : gmap loc RefObj) : option (loc * System) :=
  let '(data, h) := ref VUndefined h0 in
  _useDatabaseRef reference (spreadOver data options) scope h.

(** ** Runs *)

(** What can happen to a controller after it is set up. *)
Inductive Event :=
| SetReference (r : Source)
| Resolve (p : PromiseId) (v : value)
| Reject (p : PromiseId) (reason : value)
| RemoteChange (h : UnbindType) (v : value)
| ScopeDispose
| Unbind.

Definition step (e : Event) (s : System) : option System :=
  match e with
  | SetReference r => Some (setReference r s)
  | Resolve p v => Some (resolvePromise p v s)
  | Reject p reason => Some (rejectPromise p reason s)
  | RemoteChange h v => Some {| ctl := ctl s; env := remoteChange h v (env s) |}
  | ScopeDispose => scopeStop s
  | Unbind => unbind s
  end.

Fixpoint run (events : list Event) (s : System) : option System :=
  match events with
  | [] => Some s
  | e :: rest => s' ← step e s; run rest s'
  end.

(** The sources the binders were called with, oldest first. *)
Definition boundSources (s : System) : list Source :=
  sub_source <$> subscriptions (env s).

(** ** Systems in use *)

(** A controller that was set up and then went through [events]. *)
Definition started (reference : MaybeRef) (options : UseDatabaseRefOptions)
    (scope : bool) (h0 : gmap loc RefObj) (events : list Event)
  : option System :=
  '(_, s) ← _useDatabaseRef reference options scope h0; run events s.

(** What the cells [error], [pending] and [promise] hold. *)
Definition stateFields (s : System) : value * value * value :=
  (readValue (error (ctl s)) (heap (env s)),
   readValue (pending (ctl s)) (heap (env s)),
   readValue (promise (ctl s)) (heap (env s))).

(** The four cells of a controller exist and are four cells, and [_unbind]
    has been assigned. *)
Record wellFormed (s : System) : Prop := {
  cells_there :
    Forall (λ l, is_Some (heap (env s) !! l))
      [data (ctl s); error (ctl s); pending (ctl s); promise (ctl s)];
  cells_apart :
    NoDup [data (ctl s); error (ctl s); pending (ctl s); promise (ctl s)];
  unbind_assigned : is_Some (_unbind (ctl s));
}.

(** Two systems with the same cells, of which the second has every cell of
    the first. *)
Definition sameCells (s s' : System) : Prop :=
  data (ctl s') = data (ctl s) ∧ error (ctl s') = error (ctl s)
  ∧ pending (ctl s') = pending (ctl s) ∧ promise (ctl s') = promise (ctl s)
  ∧ ∀ l, is_Some (heap (env s) !! l) → is_Some (heap (env s') !! l).

(** The names [_useDatabaseRef] defines on the container. *)
Definition handleNames : list string :=
  ["data"; "error"; "pending"; "promise"; "unbind"].

(** The [target] of the options, when there is one, is a cell of the heap
    that has none of the accessor properties yet. *)
Definition targetAccepts (options : UseDatabaseRefOptions)
    (h0 : gmap loc RefObj) : Prop :=
  match target options with
  | PropValue t =>
      ∃ o, h0 !! t = Some o ∧ Forall (λ name, ref_props o !! name = None) handleNames
  | PropAbsent | PropUndefined => True
  end.

(** The [target] of the options, when there is one, is a cell of the
    heap. *)
Definition targetIsCell (options : UseDatabaseRefOptions)
    (h0 : gmap loc RefObj) : Prop :=
  match target options with
  | PropValue t => is_Some (h0 !! t)
  | PropAbsent | PropUndefined => True
  end.

(** The cell [o] with the accessors of the controller [c]. *)
Definition decorated (c : Controller) (o : RefObj) : RefObj :=
  {| ref_value := ref_value o;
     ref_props :=
       <["unbind" := GetUnbind]> (<["promise" := GetCell (promise c)]>
         (<["pending" := GetCell (error c)]> (<["error" := GetCell (error c)]>
           (<["data" := GetCell (data c)]> (ref_props o))))) |}.

(** The listener the first bind attaches, [held] being what the container
    holds then. *)
Definition firstSubscription (given : MaybeRef) (container : loc)
    (held : value) : Subscription :=
  {| sub_kind := if isArray held then AsArray else AsObject;
     sub_target := container; sub_source := unref given;
     sub_promise := 0; sub_live := true |}.

(** What a call of [_useDatabaseRef] with [given], [opts] and [scope] on the
    heap [h0] leaves. *)
Record setUp (given : MaybeRef) (opts : UseDatabaseRefOptions)
    (scope : bool) (h0 : gmap loc RefObj) (s : System) : Prop := {
  su_wellFormed : wellFormed s;
  su_reference : reference (ctl s) = given;
  su_options : options (ctl s) = opts;
  su_unbind : _unbind (ctl s) = Some 0;
  su_scope : hasCurrentScope (ctl s) = scope ∧ scopeActive (ctl s) = scope;
  su_watcher :
    stopWatcher (ctl s) = if isRef given then Watching else NoWatcher;
  su_promises : promises (env s) = [Pending];
  su_calls : unbindCalls (env s) = [];
  su_container :
    readValue (data (ctl s)) (heap (env s)) =
      match target opts with
      | PropValue t => readValue t h0
      | PropAbsent | PropUndefined => initialValue opts
      end;
  su_target : ∀ t, target opts = PropValue t → data (ctl s) = t;
  su_subscriptions :
    subscriptions (env s) =
      [firstSubscription given (data (ctl s))
         (readValue (data (ctl s)) (heap (env s)))];
  su_fields : stateFields s = (VUndefined, VBool true, VPromise 0);
  su_props :
    Forall (λ np, getProp (data (ctl s)) np.1 (heap (env s)) = Some np.2)
      (handleProps (ctl s));
}.

(** The options of a call of an entry point have no [target] property. *)
Definition carriesNoTarget (options : option UseDatabaseRefOptions) : Prop :=
  match options with
  | None => True
  | Some o => target o = PropAbsent
  end.

(** What the two entry points have in common: a cell holding [empty] is
    made and given as the default [target]. *)
Definition entryPoint (empty : value) (given : MaybeRef)
    (options : option UseDatabaseRefOptions) (scope : bool)
    (h0 : gmap loc RefObj) : option (loc * System) :=
  let '(data, h) := ref empty h0 in
  _useDatabaseRef given (spreadOver data options) scope h.

(** The binders that were called, oldest first. *)
Definition boundKinds (s : System) : list BinderKind :=
  sub_kind <$> subscriptions (env s).

(** The references a watcher of the reference cell sees change, the cell
    holding [current] at first: an assignment of the reference it holds is no
    change. *)
Fixpoint observed (current : Source) (events : list Event) : list Source :=
  match events with
  | [] => []
  | SetReference r :: rest =>
      if decide (r = current) then observed current rest
      else r :: observed r rest
  | _ :: rest => observed current rest
  end.

(** What the reference is after an event. *)
Definition referenceAfter (e : Event) (given : MaybeRef) : MaybeRef :=
  match e, given with
  | SetReference r, Observable _ => Observable r
  | _, _ => given
  end.

(** The references an event makes the controller bind. *)
Definition reboundBy (e : Event) (s : System) : list Source :=
  match e, reference (ctl s), stopWatcher (ctl s) with
  | SetReference r, Observable r0, Watching =>
      if decide (r = r0) then [] else [r]
  | _, _, _ => []
  end.

(** Events that leave the watcher running. *)
Definition keepsWatching (e : Event) : bool :=
  match e with
  | ScopeDispose | Unbind => false
  | _ => true
  end.

(** ** Invariants of a controller in use *)

(** The cells an event can write: a change of the reference the [promise]
    cell, a resolution [pending], a rejection [error] and [pending], a change
    of a source and a teardown the container. *)
Definition writes (e : Event) (c : Controller) : list loc :=
  match e with
  | SetReference _ => [promise c]
  | Resolve _ _ => [pending c]
  | Reject _ _ => [error c; pending c]
  | RemoteChange _ _ | ScopeDispose | Unbind => [data c]
  end.

(** The listeners made so far, whether they are still attached or not. *)
Definition attempts (w : World) : list Subscription :=
  setLive true <$> subscriptions w.

(** What holds of a controller in use: one promise and one listener per
    bind attempt, every listener on the container with the promise of its
    attempt, the latest attempt in [_unbind] and in [promise], and every call
    of an unbind procedure made with the [reset] of the options. *)
Record coherent (s : System) : Prop := {
  co_wellFormed : wellFormed s;
  co_current :
    _unbind (ctl s) = Some (pred (length (subscriptions (env s))));
  co_started : subscriptions (env s) ≠ [];
  co_promises : length (promises (env s)) = length (subscriptions (env s));
  co_promise :
    readValue (promise (ctl s)) (heap (env s))
    = VPromise (pred (length (promises (env s))));
  co_attempts :
    ∀ i sub, attempts (env s) !! i = Some sub →
      sub_target sub = data (ctl s) ∧ sub_promise sub = i;
  co_created :
    ∀ p, p ∈ createdPromises (ctl s) ↔ p < length (promises (env s));
  co_calls :
    Forall (λ call, call.2 = reset (options (ctl s))) (unbindCalls (env s));
}.

(** ** The exported [unbind] (lines 181-182) *)

Module Exports.

(** Lines 181-182.  [rtdbUnbinds], of [./optionsApi], is a [WeakMap] from a
    cell to its registry; it is taken as a map, given as it is at the call.
    The registry found for [target] is changed in place. *)
Definition unbind (rtdbUnbinds : gmap loc (gmap string UnbindType))
    (target : loc) (reset : ResetOption) (w : World)
  : gmap loc (gmap string UnbindType) * World * Completion :=
  match internalUnbind "" (rtdbUnbinds !! target) reset w with
  | (Some record, w', c) => (<[target := record]> rtdbUnbinds, w', c)
  | (None, w', c) => (rtdbUnbinds, w', c)
  end.

End Exports.

(** * Properties *)

Ltac cells_apart := first [done | by apply not_eq_sym].

(** ** The mutation primitives *)

Section MutationPrimitives.
Local Open Scope Z_scope.

Example add_middle : Ops.add [10; 20; 30] 1 15 = [10; 15; 20; 30].
Proof. reflexivity. Qed.

Example remove_middle : Ops.remove [10; 15; 20; 30] 1 = [10; 20; 30].
Proof. reflexivity. Qed.

Example add_from_the_end : Ops.add [10; 20] (-1) 15 = [10; 15; 20].
Proof. reflexivity. Qed.

Lemma add_length {A} (s : list A) (i : Z) (x : A) :
  length (Ops.add s i x) = S (length s).
Proof.
  unfold Ops.add, Ops.splice.
  rewrite !length_app, length_take, length_drop. simpl. lia.
Qed.

Lemma add_in_range {A} (s : list A) (i : Z) (x : A) :
  0 <= i <= Z.of_nat (length s) ->
  Ops.add s i x = take (Z.to_nat i) s ++ x :: drop (Z.to_nat i) s.
Proof.
  intros Hi. unfold Ops.add, Ops.splice.
  destruct (Z.ltb_spec i 0) as [Hneg|_]; [lia|].
  rewrite Z.min_l by lia.
  replace (Z.min (Z.max 0 0) (Z.of_nat (length s) - i)) with 0 by lia.
  by rewrite Z.add_0_r.
Qed.

(** C7. For every sequence [s], item [x] and index [i] with
    [0 <= i <= length s], inserting [x] at [i] with [ops.add] and then removing
    at the same index [i] with [ops.remove] gives back [s]. *)
Theorem add_then_remove {A} (s : list A) (x : A) (i : Z) :
  0 <= i <= Z.of_nat (length s) ->
  Ops.remove (Ops.add s i x) i = s.
Proof.
  intros Hi. unfold Ops.remove, Ops.splice.
  rewrite add_length, add_in_range by done.
  destruct (Z.ltb_spec i 0) as [Hneg|_]; [lia|].
  rewrite Z.min_l by lia.
  replace (Z.min (Z.max 1 0) (Z.of_nat (S (length s)) - i)) with 1 by lia.
  assert (Hlen : length (take (Z.to_nat i) s) = Z.to_nat i)
    by (rewrite length_take; lia).
  rewrite take_app_length' by done.
  replace (Z.to_nat (i + 1)) with (length (take (Z.to_nat i) s) + 1)%nat by lia.
  rewrite drop_app_add'; [|done]. simpl. rewrite drop_0.
  apply take_drop.
Qed.

Lemma add_then_remove_witness :
  0 <= 1 <= Z.of_nat (length [10; 20; 30])
  /\ Ops.remove (Ops.add [10; 20; 30] 1 15) 1 = [10; 20; 30].
Proof.
  split; [simpl; lia | apply (add_then_remove [10; 20; 30] 15 1); simpl; lia].
Defined.

(** Outside the range the law fails: a negative index counts from the end,
    before and after the insertion. *)
Example add_then_remove_negative :
  Ops.remove (Ops.add [10; 20] (-1) 15) (-1) = [10; 15].
Proof. reflexivity. Qed.

End MutationPrimitives.

(** ** The heap *)

Section Heap.
Implicit Types (h : gmap loc RefObj) (l : loc) (v : value).

Lemma readValue_write_eq h l v :
  is_Some (h !! l) → readValue l (writeValue l v h) = v.
Proof.
  intros [o Ho]. unfold readValue, writeValue.
  by rewrite lookup_alter_eq, Ho.
Qed.

Lemma readValue_write_ne h l l' v :
  l ≠ l' → readValue l' (writeValue l v h) = readValue l' h.
Proof.
  intros Hne. unfold readValue, writeValue.
  by rewrite lookup_alter_ne.
Qed.

Lemma lookup_write_is_Some h l l' v :
  is_Some (writeValue l v h !! l') ↔ is_Some (h !! l').
Proof.
  unfold writeValue. destruct (decide (l = l')) as [->|Hne].
  - rewrite lookup_alter_eq. by rewrite fmap_is_Some.
  - by rewrite lookup_alter_ne.
Qed.

Lemma getProp_write h l l' v name :
  getProp l' name (writeValue l v h) = getProp l' name h.
Proof.
  unfold getProp, writeValue. destruct (decide (l = l')) as [->|Hne].
  - rewrite lookup_alter_eq. by destruct (h !! l').
  - by rewrite lookup_alter_ne.
Qed.

Lemma ref_spec h v l h' :
  ref v h = (l, h') → h !! l = None ∧ h' = <[l := plainCell v]> h.
Proof.
  intros [= <- <-]. split; [apply not_elem_of_dom, is_fresh | done].
Qed.

End Heap.

(** ** Well-formed systems *)

Section WellFormed.
Implicit Types (s : System) (w : World) (c : Controller).

Lemma sameCells_wellFormed s s' :
  sameCells s s' → is_Some (_unbind (ctl s')) → wellFormed s → wellFormed s'.
Proof.
  intros (Hd & He & Hp & Hq & Hh) Hu [Hthere Hapart _].
  split; [| |done]; rewrite Hd, He, Hp, Hq; [|done].
  eapply Forall_impl; [exact Hthere|]. simpl. auto.
Qed.

Lemma callUnbind_heap w h policy l :
  is_Some (heap w !! l) → is_Some (heap (callUnbind h policy w) !! l).
Proof.
  intros Hl. unfold callUnbind.
  destruct (subscriptions w !! h) as [sub|]; [|done].
  destruct (resetValue (sub_kind sub) policy); [|done].
  simpl. by apply lookup_write_is_Some.
Qed.

Lemma remoteChange_heap w h v l :
  is_Some (heap w !! l) → is_Some (heap (remoteChange h v w) !! l).
Proof.
  intros Hl. unfold remoteChange.
  destruct (subscriptions w !! h) as [sub|]; [|done].
  destruct (sub_live sub); [|done].
  simpl. by apply lookup_write_is_Some.
Qed.

Lemma bindDatabaseRef_sameCells s : sameCells s (bindDatabaseRef s).
Proof.
  unfold sameCells, bindDatabaseRef.
  destruct (isArray _); simpl; repeat split; try done;
    intros l Hl; by apply lookup_write_is_Some.
Qed.

Lemma bindDatabaseRef_assigns s : is_Some (_unbind (ctl (bindDatabaseRef s))).
Proof. unfold bindDatabaseRef. destruct (isArray _); simpl; eauto. Qed.

Lemma bindDatabaseRef_wellFormed s :
  wellFormed s → wellFormed (bindDatabaseRef s).
Proof.
  apply sameCells_wellFormed;
    [apply bindDatabaseRef_sameCells | apply bindDatabaseRef_assigns].
Qed.

Lemma setReference_wellFormed r s :
  wellFormed s → wellFormed (setReference r s).
Proof.
  intros Hwf. unfold setReference.
  destruct (reference (ctl s)) as [r0|r0]; [done|].
  destruct (decide (r = r0)); [done|].
  assert (wellFormed {| ctl := withReference (Observable r) (ctl s); env := env s |})
    as Hwf' by (destruct Hwf; by split).
  destruct (stopWatcher (ctl s)); [done| |done].
  by apply bindDatabaseRef_wellFormed.
Qed.

Lemma resolvePromise_wellFormed p v s :
  wellFormed s → wellFormed (resolvePromise p v s).
Proof.
  intros Hwf. unfold resolvePromise.
  destruct (promises (env s) !! p) as [[| |]|]; try done.
  apply (sameCells_wellFormed s); [|by destruct Hwf|done].
  repeat split; try done. intros l Hl. simpl. by apply lookup_write_is_Some.
Qed.

Lemma rejectPromise_wellFormed p reason s :
  wellFormed s → wellFormed (rejectPromise p reason s).
Proof.
  intros Hwf. unfold rejectPromise.
  destruct (promises (env s) !! p) as [[| |]|]; try done.
  apply (sameCells_wellFormed s); [|by destruct Hwf|done].
  repeat split; try done. intros l Hl. simpl.
  by apply lookup_write_is_Some, lookup_write_is_Some.
Qed.

Lemma callCurrentUnbind_wellFormed s :
  wellFormed s → ∃ s', callCurrentUnbind s = Some s' ∧ wellFormed s'.
Proof.
  intros Hwf. destruct (unbind_assigned s Hwf) as [h Hh].
  unfold callCurrentUnbind. rewrite Hh. simpl. eexists; split; [done|].
  apply (sameCells_wellFormed s); [|simpl; by rewrite Hh|done].
  repeat split; try done. intros l Hl. by apply callUnbind_heap.
Qed.

Lemma callStopWatcher_wellFormed s :
  wellFormed s → wellFormed (callStopWatcher s).
Proof.
  intros Hwf. unfold callStopWatcher.
  destruct (stopWatcher (ctl s)); try done. destruct Hwf; by split.
Qed.

Lemma step_wellFormed e s :
  wellFormed s → ∃ s', step e s = Some s' ∧ wellFormed s'.
Proof.
  intros Hwf. destruct e as [r|p v|p reason|h v| |]; simpl.
  - eauto using setReference_wellFormed.
  - eauto using resolvePromise_wellFormed.
  - eauto using rejectPromise_wellFormed.
  - eexists; split; [done|].
    apply (sameCells_wellFormed s); [|by destruct Hwf|done].
    repeat split; try done. intros l Hl. by apply remoteChange_heap.
  - unfold scopeStop, onScopeDisposeCallback.
    destruct (hasCurrentScope (ctl s) && scopeActive (ctl s)); [|eauto].
    apply callCurrentUnbind_wellFormed, callStopWatcher_wellFormed.
    destruct Hwf; by split.
  - unfold unbind.
    by apply callCurrentUnbind_wellFormed, callStopWatcher_wellFormed.
Qed.

(** A well-formed system goes through any events without an exception. *)
Lemma run_wellFormed events s :
  wellFormed s → ∃ s', run events s = Some s' ∧ wellFormed s'.
Proof.
  revert s. induction events as [|e events IH]; intros s Hwf; simpl; [eauto|].
  destruct (step_wellFormed e s Hwf) as (s1 & -> & Hwf1). simpl. eauto.
Qed.

End WellFormed.

(** ** Setting up a controller *)

Lemma targetAccepts_isCell opts h0 :
  targetAccepts opts h0 → targetIsCell opts h0.
Proof.
  unfold targetAccepts, targetIsCell.
  destruct (target opts); [done..|]. intros (o & -> & _). eauto.
Qed.

(** The cells [setup] makes are new, and the container is the target or a new
    cell. *)
Lemma setup_spec given opts scope h0 :
  targetIsCell opts h0 →
  ∃ d e p q h od,
    setup given opts scope h0 =
      {| ctl := {| reference := given; options := opts; _unbind := None;
                   data := d; error := e; pending := p;
                   promise := q; createdPromises := ∅;
                   hasCurrentScope := scope; scopeActive := scope;
                   stopWatcher := NoWatcher |};
         env := {| heap := h; promises := []; subscriptions := [];
                   unbindCalls := [] |} |}
    ∧ NoDup [d; e; p; q]
    ∧ h !! d = Some od
    ∧ match target opts with
      | PropValue t => d = t ∧ h0 !! t = Some od
      | PropAbsent | PropUndefined => od = plainCell (initialValue opts)
      end
    ∧ h !! e = Some (plainCell VUndefined)
    ∧ h !! p = Some (plainCell (VBool true))
    ∧ h !! q = Some (plainCell VUndefined).
Proof.
  intros Hcell. unfold setup.
  destruct (match target opts with
            | PropValue t => (t, h0)
            | _ => ref (initialValue opts) h0
            end) as [d h1] eqn:Hd.
  assert (Hd1 : ∃ od, h1 !! d = Some od
            ∧ match target opts with
              | PropValue t => d = t ∧ h0 !! t = Some od
              | PropAbsent | PropUndefined => od = plainCell (initialValue opts)
              end).
  { unfold targetIsCell in Hcell. destruct (target opts) as [| |t].
    - apply ref_spec in Hd as [_ ->]. rewrite lookup_insert_eq. eauto.
    - apply ref_spec in Hd as [_ ->]. rewrite lookup_insert_eq. eauto.
    - injection Hd as <- <-. destruct Hcell as [o Ho]. eauto. }
  clear Hd. destruct Hd1 as (od & Hod & Htarget).
  destruct (ref VUndefined h1) as [e h2] eqn:He. apply ref_spec in He as [He ->].
  destruct (ref (VBool true) _) as [p h3] eqn:Hp. apply ref_spec in Hp as [Hp ->].
  destruct (ref VUndefined _) as [q h4] eqn:Hq. apply ref_spec in Hq as [Hq ->].
  assert (Hed : e ≠ d) by congruence.
  assert (Hpe : p ≠ e) by (intros ->; by rewrite lookup_insert_eq in Hp).
  assert (Hpd : p ≠ d)
    by (intros ->; rewrite lookup_insert_ne in Hp by done; congruence).
  assert (Hqp : q ≠ p) by (intros ->; by rewrite lookup_insert_eq in Hq).
  assert (Hqe : q ≠ e)
    by (intros ->; rewrite lookup_insert_ne, lookup_insert_eq in Hq by done; done).
  assert (Hqd : q ≠ d)
    by (intros ->; rewrite !lookup_insert_ne in Hq by done; congruence).
  eexists d, e, p, q, _, od. split; [done|].
  split.
  { repeat (apply NoDup_cons; split); [..|apply NoDup_nil];
      rewrite ?not_elem_of_cons; repeat split; auto using not_elem_of_nil. }
  repeat first [rewrite lookup_insert_eq | rewrite lookup_insert_ne by done].
  done.
Qed.

(** The accessors can be defined on a cell exactly when it has none of
    them. *)
Lemma definePropertiesOn_handleProps od c :
  (Forall (λ name, ref_props od !! name = None) handleNames →
   definePropertiesOn od (handleProps c) = Some (decorated c od))
  ∧ (is_Some (definePropertiesOn od (handleProps c)) →
     Forall (λ name, ref_props od !! name = None) handleNames).
Proof.
  unfold handleNames, handleProps, decorated. split.
  - rewrite !Forall_cons. intros (Hn1 & Hn2 & Hn3 & Hn4 & Hn5 & _).
    simpl. unfold defineProperty. simpl. rewrite Hn1. simpl.
    rewrite lookup_insert_ne, Hn2 by done. simpl.
    rewrite !lookup_insert_ne, Hn3 by done. simpl.
    rewrite !lookup_insert_ne, Hn4 by done. simpl.
    by rewrite !lookup_insert_ne, Hn5 by done.
  - simpl. unfold defineProperty. simpl.
    destruct (ref_props od !! "data") eqn:Hn1; simpl; [intros [? [=]]|].
    rewrite lookup_insert_ne by done.
    destruct (ref_props od !! "error") eqn:Hn2; simpl; [intros [? [=]]|].
    rewrite !lookup_insert_ne by done.
    destruct (ref_props od !! "pending") eqn:Hn3; simpl; [intros [? [=]]|].
    rewrite !lookup_insert_ne by done.
    destruct (ref_props od !! "promise") eqn:Hn4; simpl; [intros [? [=]]|].
    rewrite !lookup_insert_ne by done.
    destruct (ref_props od !! "unbind") eqn:Hn5; simpl; [intros [? [=]]|].
    intros _. by repeat apply Forall_cons_2.
Qed.

(** A call of [_useDatabaseRef], step by step: the cells, the first bind,
    the accessors. *)
Lemma useDatabaseRef_spec given opts scope h0 :
  targetIsCell opts h0 →
  ∃ c h od,
    _useDatabaseRef given opts scope h0 =
      (o' ← definePropertiesOn od (handleProps c);
       Some (data c,
             {| ctl := c;
                env := {| heap := <[data c := o']> h;
                          promises := [Pending];
                          subscriptions :=
                            [firstSubscription given (data c) (ref_value od)];
                          unbindCalls := [] |} |}))
    ∧ reference c = given ∧ options c = opts ∧ _unbind c = Some 0
    ∧ hasCurrentScope c = scope ∧ scopeActive c = scope
    ∧ stopWatcher c = (if isRef given then Watching else NoWatcher)
    ∧ NoDup [data c; error c; pending c; promise c]
    ∧ h !! data c = Some od
    ∧ match target opts with
      | PropValue t => data c = t ∧ h0 !! t = Some od
      | PropAbsent | PropUndefined => od = plainCell (initialValue opts)
      end
    ∧ h !! error c = Some (plainCell VUndefined)
    ∧ h !! pending c = Some (plainCell (VBool true))
    ∧ h !! promise c = Some (setValue (VPromise 0) (plainCell VUndefined)).
Proof.
  intros Hcell.
  destruct (setup_spec given opts scope h0 Hcell)
    as (d & e & p & q & h & od & Hsetup & Hapart & Hd & Htarget & He & Hp & Hq).
  pose proof Hapart as Hapart'.
  apply NoDup_cons in Hapart' as [Hd' Hapart'].
  apply NoDup_cons in Hapart' as [He' Hapart'].
  apply NoDup_cons in Hapart' as [Hp' _].
  rewrite !not_elem_of_cons in Hd'. rewrite !not_elem_of_cons in He'.
  rewrite !not_elem_of_cons in Hp'.
  destruct Hd' as (Hde & Hdp & Hdq & _), He' as (Hep & Heq & _), Hp' as (Hpq & _).
  assert (Hheld : readValue d h = ref_value od)
    by (unfold readValue; by rewrite Hd).
  assert (Hkind : ∀ w : World,
            (if isArray (ref_value od) then bindAsArray d (unref given) 0 w
             else bindAsObject d (unref given) 0 w)
            = bind (if isArray (ref_value od) then AsArray else AsObject)
                d (unref given) 0 w)
    by (intros w; by destruct (isArray (ref_value od))).
  set (c := {| reference := given; options := opts; _unbind := Some 0;
               data := d; error := e; pending := p; promise := q;
               createdPromises := {[0]} ∪ ∅;
               hasCurrentScope := scope; scopeActive := scope;
               stopWatcher := if isRef given then Watching else NoWatcher |}).
  assert (Hbound :
            (if isRef given
             then watchImmediate (setup given opts scope h0)
             else bindDatabaseRef (setup given opts scope h0))
            = {| ctl := c;
                 env := {| heap := writeValue q (VPromise 0) h;
                           promises := [Pending];
                           subscriptions :=
                             [firstSubscription given d (ref_value od)];
                           unbindCalls := [] |} |}).
  { rewrite Hsetup. unfold c.
    destruct (isRef given);
      unfold watchImmediate, bindDatabaseRef; simpl;
      by rewrite Hheld, Hkind. }
  exists c, (writeValue q (VPromise 0) h), od. split.
  { unfold _useDatabaseRef. rewrite Hbound.
    unfold defineProperties. cbn [ctl env heap data c].
    assert (writeValue q (VPromise 0) h !! d = Some od) as ->
      by (unfold writeValue; by rewrite lookup_alter_ne).
    cbn [mbind option_bind].
    by destruct (definePropertiesOn od (handleProps c)). }
  unfold writeValue. cbn [c reference options _unbind data error pending promise
                            hasCurrentScope scopeActive stopWatcher].
  rewrite !lookup_alter_ne, lookup_alter_eq, Hq by done.
  by repeat split.
Qed.

(** The call returns when the target accepts the accessors, and leaves a
    system that is set up. *)
Lemma construct given opts scope h0 :
  targetAccepts opts h0 →
  ∃ s, _useDatabaseRef given opts scope h0 = Some (data (ctl s), s)
       ∧ setUp given opts scope h0 s.
Proof.
  intros Hacc.
  destruct (useDatabaseRef_spec given opts scope h0 (targetAccepts_isCell _ _ Hacc))
    as (c & h & od & Hcall & Href & Hopts & Hunbind & Hscope & Hactive & Hwatch
        & Hapart & Hd & Htarget & He & Hp & Hq).
  assert (Hnames : Forall (λ name, ref_props od !! name = None) handleNames).
  { unfold targetAccepts in Hacc. destruct (target opts) as [| |t].
    - subst od. by apply Forall_forall.
    - subst od. by apply Forall_forall.
    - destruct Htarget as [_ Hod], Hacc as (o & Ho & Hnames).
      by assert (o = od) as -> by congruence. }
  rewrite (proj1 (definePropertiesOn_handleProps od c) Hnames) in Hcall.
  simpl in Hcall.
  pose proof Hapart as Hapart'.
  apply NoDup_cons in Hapart' as [Hd' Hapart'].
  apply NoDup_cons in Hapart' as [He' Hapart'].
  apply NoDup_cons in Hapart' as [Hp' _].
  rewrite !not_elem_of_cons in Hd'. rewrite !not_elem_of_cons in He'.
  rewrite !not_elem_of_cons in Hp'.
  destruct Hd' as (Hde & Hdp & Hdq & _), He' as (Hep & Heq & _), Hp' as (Hpq & _).
  eexists {| ctl := c; env := _ |}. split; [exact Hcall|].
  assert (Hheld : readValue (data c) (<[data c := decorated c od]> h)
                  = ref_value od)
    by (unfold readValue; by rewrite lookup_insert_eq).
  split; simpl; try done.
  - split; simpl; [| done | by rewrite Hunbind].
    repeat apply Forall_cons_2; [..|apply Forall_nil_2];
      rewrite ?lookup_insert_eq, ?lookup_insert_ne by done; eauto.
  - rewrite Hheld. destruct (target opts) as [| |t].
    + by subst od.
    + by subst od.
    + destruct Htarget as [_ Hod]. unfold readValue. by rewrite Hod.
  - intros t Ht. rewrite Ht in Htarget. by destruct Htarget.
  - by rewrite Hheld.
  - unfold stateFields, readValue. simpl.
    by rewrite !lookup_insert_ne, He, Hp, Hq by done.
  - unfold handleProps, getProp, decorated.
    repeat apply Forall_cons_2; [..|apply Forall_nil_2]; simpl;
      rewrite lookup_insert_eq; simpl;
      rewrite ?lookup_insert_ne by done; apply lookup_insert_eq.
Qed.

(** When the call returns, the target had none of the accessors. *)
Lemma returned_accepts given opts scope h0 handle s :
  targetIsCell opts h0 →
  _useDatabaseRef given opts scope h0 = Some (handle, s) →
  targetAccepts opts h0.
Proof.
  intros Hcell Hs.
  destruct (useDatabaseRef_spec given opts scope h0 Hcell)
    as (c & h & od & Hcall & _ & _ & _ & _ & _ & _ & _ & _ & Htarget & _).
  rewrite Hcall in Hs. unfold targetAccepts.
  destruct (target opts) as [| |t]; [done..|].
  destruct Htarget as [_ Hod]. exists od. split; [done|].
  apply (definePropertiesOn_handleProps od c).
  destruct (definePropertiesOn od (handleProps c)); [eauto|done].
Qed.

Lemma started_wellFormed given opts scope h0 events :
  targetAccepts opts h0 →
  ∃ s, started given opts scope h0 events = Some s ∧ wellFormed s.
Proof.
  intros Hacc. destruct (construct given opts scope h0 Hacc) as (s0 & Hs0 & Hup).
  destruct (run_wellFormed events s0 (su_wellFormed _ _ _ _ _ Hup))
    as (s & Hrun & Hwf).
  exists s. split; [|done]. unfold started. by rewrite Hs0.
Qed.

Lemma started_nil given opts scope h0 :
  targetAccepts opts h0 →
  ∃ s, started given opts scope h0 [] = Some s ∧ setUp given opts scope h0 s.
Proof.
  intros Hacc. destruct (construct given opts scope h0 Hacc) as (s0 & Hs0 & Hup).
  exists s0. split; [|done]. unfold started. by rewrite Hs0.
Qed.

(** ** Settlements *)

Section Settlements.
Implicit Types (s : System) (p : PromiseId).

Lemma wellFormed_cells s :
  wellFormed s →
  (is_Some (heap (env s) !! error (ctl s))
   ∧ is_Some (heap (env s) !! pending (ctl s))
   ∧ is_Some (heap (env s) !! promise (ctl s)))
  ∧ error (ctl s) ≠ pending (ctl s)
  ∧ error (ctl s) ≠ promise (ctl s)
  ∧ pending (ctl s) ≠ promise (ctl s).
Proof.
  intros [Hthere Hapart _].
  rewrite !Forall_cons in Hthere. destruct Hthere as (_ & He & Hp & Hq & _).
  apply NoDup_cons in Hapart as [_ Hapart].
  apply NoDup_cons in Hapart as [He' Hapart].
  apply NoDup_cons in Hapart as [Hp' _].
  rewrite !not_elem_of_cons in He'. rewrite !not_elem_of_cons in Hp'.
  destruct He' as (? & ? & _), Hp' as (? & _). done.
Qed.

(** A bind attempt stores its promise and leaves [error] and [pending]. *)
Lemma bindDatabaseRef_fields s :
  wellFormed s →
  stateFields (bindDatabaseRef s) =
    (readValue (error (ctl s)) (heap (env s)),
     readValue (pending (ctl s)) (heap (env s)),
     VPromise (length (promises (env s)))).
Proof.
  intros Hwf.
  destruct (wellFormed_cells s Hwf) as ((He & Hp & Hq) & Hep & Heq & Hpq).
  unfold stateFields, bindDatabaseRef.
  destruct (isArray _); simpl;
    rewrite (readValue_write_ne _ (promise (ctl s)) (error (ctl s)))
      by cells_apart;
    rewrite (readValue_write_ne _ (promise (ctl s)) (pending (ctl s)))
      by cells_apart;
    by rewrite readValue_write_eq.
Qed.

Lemma resolvePromise_fields p v s :
  wellFormed s → promises (env s) !! p = Some Pending →
  stateFields (resolvePromise p v s) =
    (readValue (error (ctl s)) (heap (env s)),
     VBool false,
     readValue (promise (ctl s)) (heap (env s))).
Proof.
  intros Hwf Hpending.
  destruct (wellFormed_cells s Hwf) as ((He & Hp & Hq) & Hep & Heq & Hpq).
  unfold stateFields, resolvePromise. rewrite Hpending. simpl.
  rewrite (readValue_write_ne _ (pending (ctl s)) (error (ctl s)))
    by cells_apart.
  rewrite (readValue_write_ne _ (pending (ctl s)) (promise (ctl s)))
    by cells_apart.
  by rewrite readValue_write_eq.
Qed.

Lemma rejectPromise_fields p reason s :
  wellFormed s → promises (env s) !! p = Some Pending →
  stateFields (rejectPromise p reason s) =
    (reason, VBool false, readValue (promise (ctl s)) (heap (env s))).
Proof.
  intros Hwf Hpending.
  destruct (wellFormed_cells s Hwf) as ((He & Hp & Hq) & Hep & Heq & Hpq).
  unfold stateFields, rejectPromise. rewrite Hpending. simpl.
  rewrite (readValue_write_ne _ (pending (ctl s)) (error (ctl s)))
    by cells_apart.
  rewrite (readValue_write_ne _ (pending (ctl s)) (promise (ctl s)))
    by cells_apart.
  rewrite (readValue_write_ne _ (error (ctl s)) (promise (ctl s)))
    by cells_apart.
  rewrite (readValue_write_eq _ (error (ctl s))) by done.
  by rewrite readValue_write_eq by (by apply lookup_write_is_Some).
Qed.

(** A promise settles once. *)
Lemma settled_promise_ignores p v reason s :
  promises (env s) !! p ≠ Some Pending →
  resolvePromise p v s = s ∧ rejectPromise p reason s = s.
Proof.
  intros Hp. unfold resolvePromise, rejectPromise.
  by destruct (promises (env s) !! p) as [[| |]|].
Qed.

End Settlements.

Lemma reachable_wellFormed given opts scope h0 events s :
  targetIsCell opts h0 →
  started given opts scope h0 events = Some s → wellFormed s.
Proof.
  intros Hcell Hs.
  assert (Hacc : targetAccepts opts h0).
  { unfold started in Hs.
    destruct (_useDatabaseRef given opts scope h0) as [[handle s0]|] eqn:Hs0;
      [|done].
    by apply (returned_accepts given opts scope h0 handle s0). }
  destruct (started_wellFormed given opts scope h0 events Hacc) as (s' & Hs' & Hwf).
  congruence.
Qed.

(** ** Superseded attempts *)

(** C1, as the statement stands, fails: with a reference cell that goes from
    reference 0 to reference 1, attempt 0 is superseded by attempt 1, whose
    promise the [promise] cell holds; when attempt 0 then rejects, [error]
    goes from [undefined] to the stale failure and [pending] from [true] to
    [false]. *)
Lemma stale_rejection_changes_fields :
  (s ← started (Observable 0) noOptions false ∅ [SetReference 1];
   Some (stateFields s, stateFields (rejectPromise 0 (VError "denied") s)))
  = Some ((VUndefined, VBool true, VPromise 1),
          (VError "denied", VBool false, VPromise 1)).
Proof. vm_compute. reflexivity. Qed.

(** C1, amended.  For every controller and every attempt [p] that has been
    superseded and has not settled yet, the settlement of [p] does not
    replace [promise] and does not set [pending] to true: it sets [pending]
    to false; a resolution leaves [error] as it is, and a rejection stores
    its failure in [error]. *)
Theorem superseded_settlement_fields given opts scope h0 events s p :
  targetIsCell opts h0 →
  started given opts scope h0 events = Some s →
  promises (env s) !! p = Some Pending →
  readValue (promise (ctl s)) (heap (env s)) ≠ VPromise p →
  (∀ v, stateFields (resolvePromise p v s) =
          (readValue (error (ctl s)) (heap (env s)),
           VBool false,
           readValue (promise (ctl s)) (heap (env s))))
  ∧ (∀ reason, stateFields (rejectPromise p reason s) =
          (reason, VBool false, readValue (promise (ctl s)) (heap (env s)))).
Proof.
  intros Hcell Hs Hp _.
  pose proof (reachable_wellFormed _ _ _ _ _ _ Hcell Hs) as Hwf.
  split; intros x.
  - by apply resolvePromise_fields.
  - by apply rejectPromise_fields.
Qed.

Lemma superseded_settlement_fields_witness :
  ∃ s, started (Observable 0) noOptions false ∅ [SetReference 1] = Some s
       ∧ (∀ v, stateFields (resolvePromise 0 v s) =
                 (VUndefined, VBool false, VPromise 1))
       ∧ (∀ reason, stateFields (rejectPromise 0 reason s) =
                 (reason, VBool false, VPromise 1)).
Proof.
  eexists. split; [reflexivity|].
  refine (superseded_settlement_fields (Observable 0) noOptions false ∅
            [SetReference 1] _ 0 I eq_refl eq_refl _).
  vm_compute. discriminate.
Defined.

(** ** Attempts and the state fields *)

(** C4, as the statement stands, fails: after attempt 0 has rejected, a
    rebind leaves [pending] false at the start of attempt 1, and the
    resolution of attempt 1, the current one, leaves the failure of attempt 0
    in [error]. *)
Lemma rebind_keeps_pending_and_error :
  stateFields <$> started (Observable 0) noOptions false ∅
                    [Reject 0 (VError "denied"); SetReference 1]
  = Some (VError "denied", VBool false, VPromise 1)
  ∧ stateFields <$> started (Observable 0) noOptions false ∅
                      [Reject 0 (VError "denied"); SetReference 1; Resolve 1 VNull]
    = Some (VError "denied", VBool false, VPromise 1).
Proof. split; vm_compute; reflexivity. Qed.

(** C4, amended.  [pending] is true when the controller is set up, that is
    for the initial attempt, and a bind attempt, the initial one or a rebind,
    leaves [pending] and [error] as they are; when an attempt rejects,
    [error] is set to the failure, and when it resolves [error] is left as it
    is; once an attempt settles either way, [pending] is set to false,
    whether or not the attempt is still the current one. *)
Theorem attempt_state_fields given opts scope h0 events s :
  targetIsCell opts h0 →
  started given opts scope h0 events = Some s →
  (events = [] → stateFields s = (VUndefined, VBool true, VPromise 0))
  ∧ stateFields (bindDatabaseRef s) =
      (readValue (error (ctl s)) (heap (env s)),
       readValue (pending (ctl s)) (heap (env s)),
       VPromise (length (promises (env s))))
  ∧ ∀ p, promises (env s) !! p = Some Pending →
      (∀ v, stateFields (resolvePromise p v s) =
              (readValue (error (ctl s)) (heap (env s)),
               VBool false,
               readValue (promise (ctl s)) (heap (env s))))
      ∧ (∀ reason, stateFields (rejectPromise p reason s) =
              (reason, VBool false, readValue (promise (ctl s)) (heap (env s)))).
Proof.
  intros Hcell Hs.
  pose proof (reachable_wellFormed _ _ _ _ _ _ Hcell Hs) as Hwf.
  split; [|split].
  - intros ->.
    assert (Hacc : targetAccepts opts h0).
    { unfold started in Hs.
      destruct (_useDatabaseRef given opts scope h0) as [[handle s0]|] eqn:Hs0;
        [|done].
      by apply (returned_accepts given opts scope h0 handle s0). }
    destruct (started_nil given opts scope h0 Hacc) as (s0 & Hs0 & Hup).
    assert (s0 = s) as -> by congruence. by destruct Hup.
  - by apply bindDatabaseRef_fields.
  - intros p Hp. split; intros x.
    + by apply resolvePromise_fields.
    + by apply rejectPromise_fields.
Qed.

Lemma attempt_state_fields_witness :
  ∃ s, started (Observable 0) noOptions false ∅ [] = Some s
       ∧ stateFields s = (VUndefined, VBool true, VPromise 0)
       ∧ promises (env s) !! 0 = Some Pending
       ∧ stateFields (rejectPromise 0 (VError "denied") s) =
           (VError "denied", VBool false,
            readValue (promise (ctl s)) (heap (env s))).
Proof.
  eexists. split; [reflexivity|].
  lazymatch goal with
  | |- stateFields ?s = _ ∧ _ =>
      pose proof (attempt_state_fields (Observable 0) noOptions false ∅ [] s
                    I eq_refl) as (Hinitial & _ & Hsettle)
  end.
  split; [exact (Hinitial eq_refl)|].
  split; [reflexivity|].
  exact (proj2 (Hsettle 0 eq_refl) (VError "denied")).
Defined.


(** ** The handle *)

(** In every handle the [pending] accessor gives the [error] cell, which is
    not the [pending] cell. *)
Lemma handle_pending_is_error given opts scope h0 handle s :
  targetIsCell opts h0 →
  _useDatabaseRef given opts scope h0 = Some (handle, s) →
  getProp handle "pending" (heap (env s)) = Some (GetCell (error (ctl s)))
  ∧ getProp handle "error" (heap (env s)) = Some (GetCell (error (ctl s)))
  ∧ error (ctl s) ≠ pending (ctl s).
Proof.
  intros Hcell Hs.
  pose proof (returned_accepts _ _ _ _ _ _ Hcell Hs) as Hacc.
  destruct (construct given opts scope h0 Hacc) as (s' & Hs' & Hup).
  assert (handle = data (ctl s') ∧ s = s') as [-> ->] by (split; congruence).
  pose proof (su_props _ _ _ _ _ Hup) as Hprops.
  unfold handleProps in Hprops. rewrite !Forall_cons in Hprops.
  destruct Hprops as (_ & Herror & Hpending & _).
  destruct (wellFormed_cells s' (su_wellFormed _ _ _ _ _ Hup)) as (_ & Hne & _).
  done.
Qed.

(** C3.  The claim is that the [pending] accessor of a handle yields the
    pending cell and the [error] accessor the error cell, two cells.  In the
    handle [useObject] returns for a plain reference, the [pending] accessor
    yields cell 1 as the [error] accessor does: that is the [error] cell,
    which holds [undefined], and not the [pending] cell 2, which holds
    [true]. *)
Theorem pending_accessor_yields_error_cell :
  (λ '(handle, s),
     (getProp handle "pending" (heap (env s)),
      getProp handle "error" (heap (env s)),
      (error (ctl s), readValue (error (ctl s)) (heap (env s))),
      (pending (ctl s), readValue (pending (ctl s)) (heap (env s)))))
    <$> useObject (Plain 0) None false ∅
  = Some (Some (GetCell 1), Some (GetCell 1), (1, VUndefined), (2, VBool true)).
Proof. vm_compute. reflexivity. Qed.

(** C10.  The handle [_useDatabaseRef] returns is the container cell and no
    wrapper: the accessor properties are defined on that cell, its [data]
    accessor gives the same cell, and when the options have a [target] the
    handle is that cell of the caller, which holds what it held and has
    gained the accessor properties.  The call does return when the target has
    none of these properties yet. *)
Theorem handle_is_container given opts scope h0 :
  targetIsCell opts h0 →
  (∀ handle s,
     _useDatabaseRef given opts scope h0 = Some (handle, s) →
     handle = data (ctl s)
     ∧ getProp handle "data" (heap (env s)) = Some (GetCell handle)
     ∧ Forall (λ np, getProp handle np.1 (heap (env s)) = Some np.2)
         (handleProps (ctl s))
     ∧ ∀ t, target opts = PropValue t →
         handle = t
         ∧ readValue t (heap (env s)) = readValue t h0
         ∧ Forall (λ name, getProp t name h0 = None) handleNames)
  ∧ (targetAccepts opts h0 →
     ∃ handle s, _useDatabaseRef given opts scope h0 = Some (handle, s)).
Proof.
  intros Hcell. split.
  - intros handle s Hs.
    pose proof (returned_accepts _ _ _ _ _ _ Hcell Hs) as Hacc.
    destruct (construct given opts scope h0 Hacc) as (s' & Hs' & Hup).
    assert (handle = data (ctl s') ∧ s = s') as [-> ->]
      by (split; congruence).
    pose proof (su_props _ _ _ _ _ Hup) as Hprops.
    split; [done|]. split; [|split; [done|]].
    { unfold handleProps in Hprops. rewrite !Forall_cons in Hprops. tauto. }
    intros t Ht.
    pose proof (su_target _ _ _ _ _ Hup t Ht) as Hdata.
    pose proof (su_container _ _ _ _ _ Hup) as Hheld.
    rewrite Hdata, Ht in Hheld.
    split; [done|]. split; [done|].
    unfold targetAccepts in Hacc. rewrite Ht in Hacc.
    destruct Hacc as (o & Ho & Hnames).
    eapply Forall_impl; [exact Hnames|]. intros name Hname.
    unfold getProp. by rewrite Ho.
  - intros Hacc. destruct (construct given opts scope h0 Hacc) as (s & Hs & _).
    eauto.
Qed.

Lemma handle_is_container_witness :
  targetIsCell
    {| target := PropValue 0; initialValue := VUndefined; reset := ResetUndefined |}
    {[ 0 := plainCell (VArray []) ]}
  ∧ targetAccepts
      {| target := PropValue 0; initialValue := VUndefined;
         reset := ResetUndefined |}
      {[ 0 := plainCell (VArray []) ]}
  ∧ ∃ handle s,
      _useDatabaseRef (Plain 7)
        {| target := PropValue 0; initialValue := VUndefined;
           reset := ResetUndefined |} false {[ 0 := plainCell (VArray []) ]}
      = Some (handle, s)
      ∧ handle = 0
      ∧ getProp handle "data" (heap (env s)) = Some (GetCell handle).
Proof.
  assert (Hacc : targetAccepts
            {| target := PropValue 0; initialValue := VUndefined;
               reset := ResetUndefined |} {[ 0 := plainCell (VArray []) ]}).
  { exists (plainCell (VArray [])). split; [reflexivity|].
    by repeat apply Forall_cons_2. }
  assert (Hcell : targetIsCell
            {| target := PropValue 0; initialValue := VUndefined;
               reset := ResetUndefined |} {[ 0 := plainCell (VArray []) ]})
    by (exists (plainCell (VArray [])); reflexivity).
  split; [exact Hcell|]. split; [exact Hacc|].
  destruct (handle_is_container (Plain 7) _ false _ Hcell) as [Hhandle Hreturns].
  destruct (Hreturns Hacc) as (handle & s & Hs).
  destruct (Hhandle handle s Hs) as (_ & Hdata & _ & Htarget).
  exists handle, s. split; [exact Hs|].
  split; [exact (proj1 (Htarget 0 eq_refl)) | exact Hdata].
Defined.

(** A cell that is a handle already cannot be the [target] of another call:
    the accessors cannot be defined again. *)
Example handle_as_target_raises :
  ('(handle, s) ← useList (Plain 0) None false ∅;
   _useDatabaseRef (Plain 1)
     {| target := PropValue handle; initialValue := VUndefined;
        reset := ResetUndefined |} false (heap (env s)))
  = None.
Proof. vm_compute. reflexivity. Qed.

(** ** The entry points *)

Lemma useList_entryPoint given options scope h0 :
  useList given options scope h0 = entryPoint (VArray []) given options scope h0.
Proof. reflexivity. Qed.

Lemma useObject_entryPoint given options scope h0 :
  useObject given options scope h0 = entryPoint VUndefined given options scope h0.
Proof. reflexivity. Qed.

Lemma setUp_boundKinds given opts scope h0 s :
  setUp given opts scope h0 s →
  boundKinds s =
    [if isArray (readValue (data (ctl s)) (heap (env s))) then AsArray
     else AsObject].
Proof.
  intros Hup. unfold boundKinds. by rewrite (su_subscriptions _ _ _ _ _ Hup).
Qed.

(** Without a [target] in the options, the container is the cell the entry
    point made. *)
Lemma entryPoint_default empty given options scope h0 :
  carriesNoTarget options →
  ∃ s, entryPoint empty given options scope h0 = Some (data (ctl s), s)
       ∧ readValue (data (ctl s)) (heap (env s)) = empty
       ∧ boundKinds s = [if isArray empty then AsArray else AsObject].
Proof.
  intros Hno. unfold entryPoint.
  destruct (ref empty h0) as [d h1] eqn:Hd. apply ref_spec in Hd as [Hfresh ->].
  assert (Htarget : target (spreadOver d options) = PropValue d).
  { destruct options as [o|]; [|done]. simpl in *. by rewrite Hno. }
  assert (Hacc : targetAccepts (spreadOver d options) (<[d := plainCell empty]> h0)).
  { unfold targetAccepts. rewrite Htarget. exists (plainCell empty).
    split; [apply lookup_insert_eq|]. by apply Forall_forall. }
  destruct (construct given _ scope _ Hacc) as (s & Hs & Hup).
  exists s. split; [done|].
  pose proof (su_container _ _ _ _ _ Hup) as Hheld.
  rewrite Htarget in Hheld. unfold readValue at 2 in Hheld.
  rewrite lookup_insert_eq in Hheld. simpl in Hheld.
  split; [done|]. by rewrite (setUp_boundKinds _ _ _ _ _ Hup), Hheld.
Qed.

(** With a [target] in the options, the container is that cell, and the cell
    the entry point made is left aside. *)
Lemma entryPoint_target empty given o t scope h0 :
  target o = PropValue t → targetAccepts o h0 →
  ∃ s, entryPoint empty given (Some o) scope h0 = Some (t, s)
       ∧ data (ctl s) = t
       ∧ readValue t (heap (env s)) = readValue t h0
       ∧ boundKinds s =
           [if isArray (readValue t h0) then AsArray else AsObject].
Proof.
  intros Ht Hacc0. unfold entryPoint.
  destruct (ref empty h0) as [d h1] eqn:Hd. apply ref_spec in Hd as [Hfresh ->].
  assert (Htarget : target (spreadOver d (Some o)) = PropValue t)
    by (simpl; by rewrite Ht).
  unfold targetAccepts in Hacc0. rewrite Ht in Hacc0.
  destruct Hacc0 as (ot & Hot & Hnames).
  assert (Hne : d ≠ t) by congruence.
  assert (Hacc : targetAccepts (spreadOver d (Some o)) (<[d := plainCell empty]> h0)).
  { unfold targetAccepts. rewrite Htarget. exists ot.
    by rewrite lookup_insert_ne. }
  destruct (construct given _ scope _ Hacc) as (s & Hs & Hup).
  pose proof (su_target _ _ _ _ _ Hup t Htarget) as Hdata.
  pose proof (su_container _ _ _ _ _ Hup) as Hheld.
  rewrite Htarget, Hdata in Hheld. unfold readValue at 2 in Hheld.
  rewrite lookup_insert_ne in Hheld by done.
  fold (readValue t h0) in Hheld.
  exists s. rewrite Hs, Hdata. repeat split; try done.
  by rewrite (setUp_boundKinds _ _ _ _ _ Hup), Hdata, Hheld.
Qed.

(** C5, as the statement stands, fails for a caller-supplied target: with a
    target that holds the number 5, the container [useList] binds is the
    target, it holds 5 and not [[]], and the object binder is called; with a
    target that holds an array, [useObject] calls the array binder. *)
Lemma entry_points_follow_target :
  (λ '(handle, s),
     (handle, readValue (data (ctl s)) (heap (env s)), boundKinds s))
    <$> useList (Plain 0)
          (Some {| target := PropValue 0; initialValue := VUndefined;
                   reset := ResetUndefined |})
          false {[ 0 := plainCell (VNum 5) ]}
  = Some (0, VNum 5, [AsObject])
  ∧ (λ '(handle, s),
       (handle, readValue (data (ctl s)) (heap (env s)), boundKinds s))
      <$> useObject (Plain 0)
            (Some {| target := PropValue 0; initialValue := VUndefined;
                     reset := ResetUndefined |})
            false {[ 0 := plainCell (VArray [VNum 5]) ]}
    = Some (0, VArray [VNum 5], [AsArray]).
Proof. split; vm_compute; reflexivity. Qed.

(** C5, amended.  For every call of [useList] whose options have no [target]
    property, the container at the first bind holds the empty sequence and
    the array binder is called, and for every such call of [useObject] the
    container holds [undefined] and the object binder is called; when the
    options have a [target], that cell is the container, and the binder is
    chosen by what the cell holds at the call. *)
Theorem entry_points_fix_shape given options scope h0 :
  (carriesNoTarget options →
     (∃ s, useList given options scope h0 = Some (data (ctl s), s)
           ∧ readValue (data (ctl s)) (heap (env s)) = VArray []
           ∧ boundKinds s = [AsArray])
     ∧ (∃ s, useObject given options scope h0 = Some (data (ctl s), s)
             ∧ readValue (data (ctl s)) (heap (env s)) = VUndefined
             ∧ boundKinds s = [AsObject]))
  ∧ (∀ o t, options = Some o → target o = PropValue t → targetAccepts o h0 →
       (∃ s, useList given options scope h0 = Some (t, s)
             ∧ data (ctl s) = t
             ∧ readValue t (heap (env s)) = readValue t h0
             ∧ boundKinds s =
                 [if isArray (readValue t h0) then AsArray else AsObject])
       ∧ (∃ s, useObject given options scope h0 = Some (t, s)
               ∧ data (ctl s) = t
               ∧ readValue t (heap (env s)) = readValue t h0
               ∧ boundKinds s =
                   [if isArray (readValue t h0) then AsArray else AsObject])).
Proof.
  split.
  - intros Hno. rewrite useList_entryPoint, useObject_entryPoint.
    split; by apply entryPoint_default.
  - intros o t -> Ht Hacc. rewrite useList_entryPoint, useObject_entryPoint.
    split; by apply entryPoint_target.
Qed.

Lemma entry_points_fix_shape_witness :
  (carriesNoTarget None
   ∧ (∃ s, useList (Plain 0) None false ∅ = Some (data (ctl s), s)
           ∧ readValue (data (ctl s)) (heap (env s)) = VArray []
           ∧ boundKinds s = [AsArray])
   ∧ (∃ s, useObject (Plain 0) None false ∅ = Some (data (ctl s), s)
           ∧ readValue (data (ctl s)) (heap (env s)) = VUndefined
           ∧ boundKinds s = [AsObject]))
  ∧ (targetAccepts
       {| target := PropValue 0; initialValue := VUndefined;
          reset := ResetUndefined |} {[ 0 := plainCell (VNum 5) ]}
     ∧ ∃ s, useList (Plain 0)
              (Some {| target := PropValue 0; initialValue := VUndefined;
                       reset := ResetUndefined |})
              false {[ 0 := plainCell (VNum 5) ]} = Some (0, s)
            ∧ data (ctl s) = 0
            ∧ readValue 0 (heap (env s))
              = readValue 0 {[ 0 := plainCell (VNum 5) ]}
            ∧ boundKinds s =
                [if isArray (readValue 0 {[ 0 := plainCell (VNum 5) ]})
                 then AsArray else AsObject]).
Proof.
  split.
  - split; [exact I|].
    exact (proj1 (entry_points_fix_shape (Plain 0) None false ∅) I).
  - assert (Hacc : targetAccepts
              {| target := PropValue 0; initialValue := VUndefined;
                 reset := ResetUndefined |} {[ 0 := plainCell (VNum 5) ]}).
    { exists (plainCell (VNum 5)). split; [reflexivity|].
      repeat apply Forall_cons_2; try reflexivity. apply Forall_nil_2. }
    split; [exact Hacc|].
    exact (proj1 (proj2 (entry_points_fix_shape (Plain 0) _ false _)
                    {| target := PropValue 0; initialValue := VUndefined;
                       reset := ResetUndefined |} 0 eq_refl eq_refl Hacc)).
Defined.

(** An [undefined] [target] in the options also replaces the cell of the
    entry point, and the container is then made from [initialValue]. *)
Example useList_undefined_target :
  (λ '(handle, s),
     (handle, readValue (data (ctl s)) (heap (env s)), boundKinds s))
    <$> useList (Plain 0)
          (Some {| target := PropUndefined; initialValue := VNum 5;
                   reset := ResetUndefined |})
          false ∅
  = Some (1, VNum 5, [AsObject]).
Proof. vm_compute. reflexivity. Qed.


(** ** Binding and rebinding *)

Lemma bindDatabaseRef_effect s :
  subscriptions (env (bindDatabaseRef s)) =
    subscriptions (env s) ++
      [{| sub_kind := if isArray (readValue (data (ctl s)) (heap (env s)))
                      then AsArray else AsObject;
          sub_target := data (ctl s);
          sub_source := unref (reference (ctl s));
          sub_promise := length (promises (env s));
          sub_live := true |}]
  ∧ _unbind (ctl (bindDatabaseRef s)) = Some (length (subscriptions (env s)))
  ∧ unbindCalls (env (bindDatabaseRef s)) = unbindCalls (env s)
  ∧ reference (ctl (bindDatabaseRef s)) = reference (ctl s)
  ∧ stopWatcher (ctl (bindDatabaseRef s)) = stopWatcher (ctl s).
Proof. unfold bindDatabaseRef. simpl. by destruct (isArray _). Qed.

Lemma callUnbind_sources h policy w :
  sub_source <$> subscriptions (callUnbind h policy w)
  = sub_source <$> subscriptions w.
Proof.
  unfold callUnbind. destruct (subscriptions w !! h) as [sub|] eqn:Hsub; [|done].
  assert (sub_source <$> <[h := setLive false sub]> (subscriptions w)
          = sub_source <$> subscriptions w) as Hsame.
  { rewrite list_fmap_insert. apply list_insert_id.
    by rewrite list_lookup_fmap, Hsub. }
  by destruct (resetValue (sub_kind sub) policy).
Qed.

Lemma callCurrentUnbind_effect s s' :
  callCurrentUnbind s = Some s' →
  ctl s' = ctl s ∧ boundSources s' = boundSources s.
Proof.
  unfold callCurrentUnbind. destruct (_unbind (ctl s)) as [h|]; [|done].
  intros [= <-]. split; [done|]. apply callUnbind_sources.
Qed.

Lemma callStopWatcher_effect s :
  reference (ctl (callStopWatcher s)) = reference (ctl s)
  ∧ boundSources (callStopWatcher s) = boundSources s
  ∧ stopWatcher (ctl (callStopWatcher s)) ≠ Watching.
Proof.
  unfold callStopWatcher.
  destruct (stopWatcher (ctl s)) eqn:Hw; simpl; by rewrite ?Hw.
Qed.

(** What a step does to the reference, to the watcher and to the list of
    bound references. *)
Lemma step_effect e s s' :
  step e s = Some s' →
  reference (ctl s') = referenceAfter e (reference (ctl s))
  ∧ boundSources s' = boundSources s ++ reboundBy e s
  ∧ (keepsWatching e = true → stopWatcher (ctl s') = stopWatcher (ctl s)).
Proof.
  destruct e as [r|p v|p reason|h v| |]; simpl.
  - intros [= <-]. unfold setReference, reboundBy, boundSources.
    destruct (reference (ctl s)) as [r0|r0] eqn:Href;
      [by rewrite Href, app_nil_r|].
    destruct (decide (r = r0)) as [->|Hne];
      [rewrite Href; by destruct (stopWatcher (ctl s)); rewrite app_nil_r|].
    destruct (stopWatcher (ctl s)) eqn:Hw; simpl; rewrite ?app_nil_r; try done.
    set (s1 := {| ctl := withReference (Observable r) (ctl s); env := env s |}).
    destruct (bindDatabaseRef_effect s1) as (-> & _ & _ & -> & ->).
    by rewrite fmap_app.
  - intros [= <-]. unfold resolvePromise, reboundBy.
    rewrite app_nil_r. by destruct (promises (env s) !! p) as [[| |]|].
  - intros [= <-]. unfold rejectPromise, reboundBy.
    rewrite app_nil_r. by destruct (promises (env s) !! p) as [[| |]|].
  - intros [= <-]. unfold reboundBy, boundSources, remoteChange. simpl.
    rewrite app_nil_r. destruct (subscriptions (env s) !! h) as [sub|]; [|done].
    by destruct (sub_live sub).
  - unfold scopeStop, onScopeDisposeCallback, reboundBy. rewrite app_nil_r.
    change stopEffects with callStopWatcher.
    destruct (hasCurrentScope (ctl s) && scopeActive (ctl s)).
    + intros Hs'. apply callCurrentUnbind_effect in Hs' as [-> ->].
      by destruct (callStopWatcher_effect
                     {| ctl := withScopeActive false (ctl s); env := env s |})
        as (-> & -> & _).
    + by intros [= <-].
  - unfold unbind, reboundBy. rewrite app_nil_r.
    intros Hs'. apply callCurrentUnbind_effect in Hs' as [-> ->].
    by destruct (callStopWatcher_effect s) as (-> & -> & _).
Qed.

(** A controller of a plain reference binds no more, whatever happens. *)
Lemma run_plain events s :
  wellFormed s → isRef (reference (ctl s)) = false →
  ∃ s', run events s = Some s' ∧ boundSources s' = boundSources s.
Proof.
  revert s. induction events as [|e events IH]; intros s Hwf Hplain; [by eexists|].
  destruct (step_wellFormed e s Hwf) as (s1 & Hstep & Hwf1).
  destruct (step_effect e s s1 Hstep) as (Href & Hbound & _).
  destruct (reference (ctl s)) as [r|r] eqn:Hr; [|done].
  assert (reboundBy e s = []) as Hnone
    by (unfold reboundBy; rewrite Hr; by destruct e).
  rewrite Hnone, app_nil_r in Hbound.
  destruct (IH s1 Hwf1) as (s' & Hrun & Hbound').
  { rewrite Href. by destruct e. }
  exists s'. simpl. rewrite Hstep. simpl. split; [done|]. congruence.
Qed.

(** While the watcher runs, the controller binds at each change of the
    reference cell. *)
Lemma run_watching events s current :
  wellFormed s → reference (ctl s) = Observable current →
  stopWatcher (ctl s) = Watching →
  forallb keepsWatching events = true →
  ∃ s', run events s = Some s'
        ∧ boundSources s' = boundSources s ++ observed current events.
Proof.
  revert s current.
  induction events as [|e events IH]; intros s current Hwf Hr Hw Hkeep.
  { exists s. by rewrite app_nil_r. }
  simpl in Hkeep. apply andb_prop in Hkeep as [Hkeep_e Hkeep].
  destruct (step_wellFormed e s Hwf) as (s1 & Hstep & Hwf1).
  destruct (step_effect e s s1 Hstep) as (Href & Hbound & Hwatch).
  rewrite Hr in Href. rewrite Hw in Hwatch. specialize (Hwatch Hkeep_e).
  assert (∃ next, referenceAfter e (Observable current) = Observable next
                  ∧ reboundBy e s ++ observed next events
                    = observed current (e :: events)) as (next & Hnext & Hobs).
  { unfold reboundBy. rewrite Hr, Hw.
    destruct e as [r|p v|p reason|h v| |]; simpl; try by exists current.
    exists r. split; [done|]. by destruct (decide (r = current)) as [->|]. }
  rewrite Hnext in Href.
  destruct (IH s1 next Hwf1 Href Hwatch Hkeep) as (s' & Hrun & Hbound').
  exists s'. split; [simpl; by rewrite Hstep|].
  by rewrite Hbound', Hbound, <- Hobs, app_assoc.
Qed.

(** C6, as the statement stands, fails: a cell that goes from reference 0 to
    reference 1 and back to reference 0 has held two distinct references,
    and the binding algorithm has run three times, twice for reference 0. *)
Lemma bound_again_on_return :
  boundSources <$> started (Observable 0) noOptions false ∅
                     [SetReference 1; SetReference 0]
  = Some [0; 1; 0].
Proof. vm_compute. reflexivity. Qed.

(** C6, amended.  With a plain reference the binding algorithm runs once, at
    the set up, and never again, whatever happens afterwards; with a reactive
    cell a watcher is installed that runs it once at the set up, for the
    reference the cell holds then, and once for each change of the reference
    seen afterwards: assigning the reference the cell holds already binds
    nothing, and a reference the cell comes back to is bound again. *)
Theorem binds_once_per_observed_change r opts scope h0 events :
  targetAccepts opts h0 →
  (∃ s, started (Plain r) opts scope h0 events = Some s
        ∧ boundSources s = [r])
  ∧ (forallb keepsWatching events = true →
     ∃ s, started (Observable r) opts scope h0 events = Some s
          ∧ boundSources s = r :: observed r events).
Proof.
  intros Hacc. split; [|intros Hkeep].
  - destruct (construct (Plain r) opts scope h0 Hacc) as (s0 & Hs0 & Hup).
    destruct (run_plain events s0) as (s & Hrun & Hbound).
    { by destruct Hup. }
    { by rewrite (su_reference _ _ _ _ _ Hup). }
    exists s. unfold started. rewrite Hs0. simpl. split; [done|].
    rewrite Hbound. unfold boundSources.
    by rewrite (su_subscriptions _ _ _ _ _ Hup).
  - destruct (construct (Observable r) opts scope h0 Hacc) as (s0 & Hs0 & Hup).
    destruct (run_watching events s0 r) as (s & Hrun & Hbound); try done.
    { by destruct Hup. }
    { by destruct Hup. }
    { by rewrite (su_watcher _ _ _ _ _ Hup). }
    exists s. unfold started. rewrite Hs0. simpl. split; [done|].
    rewrite Hbound. unfold boundSources.
    by rewrite (su_subscriptions _ _ _ _ _ Hup).
Qed.

Lemma binds_once_per_observed_change_witness :
  targetAccepts noOptions ∅
  ∧ forallb keepsWatching
      [SetReference 1; SetReference 1; Resolve 1 VNull; SetReference 2] = true
  ∧ (∃ s, started (Plain 0) noOptions false ∅
            [SetReference 1; SetReference 1; Resolve 1 VNull; SetReference 2]
          = Some s
          ∧ boundSources s = [0])
  ∧ (∃ s, started (Observable 0) noOptions false ∅
            [SetReference 1; SetReference 1; Resolve 1 VNull; SetReference 2]
          = Some s
          ∧ boundSources s = [0; 1; 2]).
Proof.
  split; [exact I|]. split; [reflexivity|].
  pose proof (binds_once_per_observed_change 0 noOptions false ∅
                [SetReference 1; SetReference 1; Resolve 1 VNull; SetReference 2]
                I) as [Hplain Hcell].
  split; [exact Hplain | exact (Hcell eq_refl)].
Defined.

(** ** Rebinding and the prior subscription *)

(** C2, as the statement stands, fails: after the reference cell has gone
    from reference 0 to reference 1, the listeners of both attempts are
    attached to the same container, and no unbind procedure has been called;
    a change of source 0, the superseded one, is then written to the
    container, as a change of source 1 is. *)
Lemma rebind_leaves_prior_subscription_live :
  (λ s, (liveSubscriptions (env s), unbindCalls (env s), _unbind (ctl s)))
    <$> started (Observable 0) noOptions false ∅ [SetReference 1]
  = Some ([ {| sub_kind := AsObject; sub_target := 0; sub_source := 0;
               sub_promise := 0; sub_live := true |};
            {| sub_kind := AsObject; sub_target := 0; sub_source := 1;
               sub_promise := 1; sub_live := true |} ],
          [], Some 1)
  ∧ (λ s, readValue (data (ctl s)) (heap (env s)))
      <$> started (Observable 0) noOptions false ∅
            [SetReference 1; RemoteChange 1 (VStr "of 1");
             RemoteChange 0 (VStr "of 0")]
    = Some (VStr "of 0").
Proof. split; vm_compute; reflexivity. Qed.

(** C2, amended.  Whenever a change of a reactive-cell reference triggers a
    rebind, no unbind procedure is called: the subscriptions made so far stay
    as they are, the new subscription is attached next to them on the same
    container, and its unbind procedure replaces the prior one as the
    current [_unbind]. *)
Theorem rebind_adds_subscription s r r0 :
  reference (ctl s) = Observable r0 →
  stopWatcher (ctl s) = Watching →
  r ≠ r0 →
  let attached :=
    {| sub_kind := if isArray (readValue (data (ctl s)) (heap (env s)))
                   then AsArray else AsObject;
       sub_target := data (ctl s); sub_source := r;
       sub_promise := length (promises (env s)); sub_live := true |} in
  unbindCalls (env (setReference r s)) = unbindCalls (env s)
  ∧ subscriptions (env (setReference r s)) = subscriptions (env s) ++ [attached]
  ∧ liveSubscriptions (env (setReference r s))
    = liveSubscriptions (env s) ++ [attached]
  ∧ _unbind (ctl (setReference r s)) = Some (length (subscriptions (env s))).
Proof.
  intros Href Hw Hne attached. unfold setReference.
  rewrite Href, Hw. destruct (decide (r = r0)); [done|].
  set (s1 := {| ctl := withReference (Observable r) (ctl s); env := env s |}).
  destruct (bindDatabaseRef_effect s1) as (Hsubs & Hunbind & Hcalls & _).
  repeat split; try done.
  unfold liveSubscriptions. rewrite Hsubs, filter_app. done.
Qed.

Lemma rebind_adds_subscription_witness :
  ∃ s, started (Observable 0) noOptions false ∅ [] = Some s
       ∧ reference (ctl s) = Observable 0
       ∧ stopWatcher (ctl s) = Watching
       ∧ 1 ≠ 0
       ∧ unbindCalls (env (setReference 1 s)) = unbindCalls (env s)
       ∧ _unbind (ctl (setReference 1 s)) = Some (length (subscriptions (env s))).
Proof.
  eexists. split; [reflexivity|].
  split; [reflexivity|]. split; [reflexivity|]. split; [discriminate|].
  lazymatch goal with
  | |- unbindCalls (env (setReference 1 ?s)) = _ ∧ _ =>
      pose proof (rebind_adds_subscription s 1 0 eq_refl eq_refl
                    ltac:(discriminate)) as (Hcalls & _ & _ & Hunbind)
  end.
  split; [exact Hcalls | exact Hunbind].
Defined.

(** ** Teardown *)

Lemma callUnbind_calls h policy w :
  unbindCalls (callUnbind h policy w) = unbindCalls w ++ [(h, policy)].
Proof.
  unfold callUnbind. destruct (subscriptions w !! h) as [sub|]; [|done].
  by destruct (resetValue (sub_kind sub) policy).
Qed.

Lemma stopped_watcher_binds_nothing r s :
  stopWatcher (ctl s) ≠ Watching →
  boundSources (setReference r s) = boundSources s.
Proof.
  intros Hw.
  destruct (step_effect (SetReference r) s (setReference r s) eq_refl)
    as (_ & -> & _).
  unfold reboundBy. destruct (reference (ctl s)); [by rewrite app_nil_r|].
  destruct (stopWatcher (ctl s)); [|done|]; by rewrite app_nil_r.
Qed.

(** C9, as the statement stands, fails: the watcher of line 104 is created
    inside the owning scope, and the framework stops it when the scope ends;
    after the scope has ended, a change of the reference cell from reference
    0 to reference 1 starts no bind attempt, while it does when the scope has
    not ended. *)
Lemma watcher_stops_with_scope :
  (λ s, (boundSources s, stopWatcher (ctl s), unbindCalls (env s)))
    <$> started (Observable 0) noOptions true ∅ [ScopeDispose; SetReference 1]
  = Some ([0], Stopped, [(0, ResetUndefined)])
  ∧ (λ s, (boundSources s, stopWatcher (ctl s), unbindCalls (env s)))
      <$> started (Observable 0) noOptions true ∅ [SetReference 1]
    = Some ([0; 1], Watching, []).
Proof. split; vm_compute; reflexivity. Qed.

(** C9, amended.  The callback registered with [onScopeDispose] calls only
    the current unbind procedure, with the configured reset policy, and does
    not call [stopWatcher], which only [unbind()] calls; when an owning scope
    is present and ends, the framework stops the watcher made in it and the
    callback runs, so after the scope has ended a change of a reactive-cell
    reference starts no bind attempt. *)
Theorem scope_dispose_teardown s h :
  _unbind (ctl s) = Some h →
  (∃ s1, onScopeDisposeCallback s = Some s1
         ∧ ctl s1 = ctl s
         ∧ unbindCalls (env s1)
           = unbindCalls (env s) ++ [(h, reset (options (ctl s)))])
  ∧ (∃ s2, unbind s = Some s2
           ∧ stopWatcher (ctl s2) ≠ Watching
           ∧ unbindCalls (env s2)
             = unbindCalls (env s) ++ [(h, reset (options (ctl s)))])
  ∧ (hasCurrentScope (ctl s) = true → scopeActive (ctl s) = true →
     ∃ s3, step ScopeDispose s = Some s3
           ∧ unbindCalls (env s3)
             = unbindCalls (env s) ++ [(h, reset (options (ctl s)))]
           ∧ stopWatcher (ctl s3) ≠ Watching
           ∧ ∀ r, boundSources (setReference r s3) = boundSources s3).
Proof.
  intros Hh. split; [|split].
  - unfold onScopeDisposeCallback, callCurrentUnbind. rewrite Hh. simpl.
    eexists. split; [done|]. split; [done|]. apply callUnbind_calls.
  - unfold unbind, callCurrentUnbind.
    assert (_unbind (ctl (callStopWatcher s)) = Some h) as ->
      by (unfold callStopWatcher; by destruct (stopWatcher (ctl s))).
    simpl. eexists. split; [done|]. simpl.
    split; [apply callStopWatcher_effect|].
    rewrite callUnbind_calls. unfold callStopWatcher.
    by destruct (stopWatcher (ctl s)).
  - intros Hscope Hactive. simpl.
    unfold scopeStop, onScopeDisposeCallback, callCurrentUnbind.
    change stopEffects with callStopWatcher.
    rewrite Hscope, Hactive. simpl.
    set (s0 := {| ctl := withScopeActive false (ctl s); env := env s |}).
    assert (_unbind (ctl (callStopWatcher s0)) = Some h) as ->
      by (unfold callStopWatcher; by destruct (stopWatcher (ctl s0)) eqn:Hw0).
    simpl. eexists. split; [done|]. simpl.
    assert (stopWatcher (ctl (callStopWatcher s0)) ≠ Watching) as Hstopped
      by apply callStopWatcher_effect.
    split; [|split; [done|]].
    + rewrite callUnbind_calls. unfold callStopWatcher.
      by destruct (stopWatcher (ctl s0)).
    + intros r. by apply stopped_watcher_binds_nothing.
Qed.

Lemma scope_dispose_teardown_witness :
  ∃ s, started (Observable 0) noOptions true ∅ [] = Some s
       ∧ _unbind (ctl s) = Some 0
       ∧ hasCurrentScope (ctl s) = true
       ∧ scopeActive (ctl s) = true
       ∧ ∃ s3, step ScopeDispose s = Some s3
               ∧ unbindCalls (env s3) = unbindCalls (env s) ++ [(0, ResetUndefined)]
               ∧ stopWatcher (ctl s3) ≠ Watching
               ∧ ∀ r, boundSources (setReference r s3) = boundSources s3.
Proof.
  eexists. split; [reflexivity|].
  split; [reflexivity|]. split; [reflexivity|]. split; [reflexivity|].
  lazymatch goal with
  | |- ∃ s3, step ScopeDispose ?s = _ ∧ _ =>
      exact (proj2 (proj2 (scope_dispose_teardown s 0 eq_refl)) eq_refl eq_refl)
  end.
Defined.

(** ** The registry *)







(** * Further properties *)

(** ** More on the mutation primitives *)

Section MutationBounds.
Local Open Scope Z_scope.

Lemma remove_in_range {A} (s : list A) (i : Z) :
  0 <= i < Z.of_nat (length s) ->
  Ops.remove s i = take (Z.to_nat i) s ++ drop (S (Z.to_nat i)) s.
Proof.
  intros Hi. unfold Ops.remove, Ops.splice.
  destruct (Z.ltb_spec i 0) as [Hneg|_]; [lia|].
  rewrite Z.min_l by lia.
  replace (Z.min (Z.max 1 0) (Z.of_nat (length s) - i)) with 1 by lia.
  by replace (Z.to_nat (i + 1)) with (S (Z.to_nat i)) by lia.
Qed.

(** X1.  [ops.add] never fails on an index out of range: an index at or past
    the end appends the item, and an index at or before minus the length
    puts it first. *)
Theorem add_out_of_range {A} (s : list A) (x : A) (i : Z) :
  (Z.of_nat (length s) <= i -> Ops.add s i x = s ++ [x])
  /\ (i <= - Z.of_nat (length s) -> Ops.add s i x = x :: s).
Proof.
  unfold Ops.add, Ops.splice. split; intros Hi.
  - destruct (Z.ltb_spec i 0) as [Hneg|_]; [lia|].
    rewrite Z.min_r by lia.
    replace (Z.min (Z.max 0 0) (Z.of_nat (length s) - Z.of_nat (length s)))
      with 0 by lia.
    rewrite Z.add_0_r, Nat2Z.id, take_ge, drop_ge by lia. done.
  - assert ((if i <? 0 then Z.max (Z.of_nat (length s) + i) 0
             else Z.min i (Z.of_nat (length s))) = 0) as ->
      by (destruct (Z.ltb_spec i 0); lia).
    replace (Z.min (Z.max 0 0) (Z.of_nat (length s) - 0)) with 0 by lia.
    done.
Qed.

Lemma add_out_of_range_witness :
  (Z.of_nat (length [10; 20]) <= 7 /\ Ops.add [10; 20] 7 15 = [10; 20] ++ [15])
  /\ (-5 <= - Z.of_nat (length [10; 20]) /\ Ops.add [10; 20] (-5) 15 = 15 :: [10; 20]).
Proof.
  split.
  - split; [simpl; lia|]. apply (proj1 (add_out_of_range [10; 20] 15 7)). simpl; lia.
  - split; [simpl; lia|]. apply (proj2 (add_out_of_range [10; 20] 15 (-5))). simpl; lia.
Defined.

(** X2.  [ops.remove] never fails on an index out of range: at or past the
    end nothing is removed, and at or before minus the length the first item
    is. *)
Theorem remove_out_of_range {A} (s : list A) (i : Z) :
  (Z.of_nat (length s) <= i -> Ops.remove s i = s)
  /\ (i <= - Z.of_nat (length s) -> Ops.remove s i = drop 1 s).
Proof.
  unfold Ops.remove, Ops.splice. split; intros Hi.
  - destruct (Z.ltb_spec i 0) as [Hneg|_]; [lia|].
    rewrite Z.min_r by lia.
    replace (Z.min (Z.max 1 0) (Z.of_nat (length s) - Z.of_nat (length s)))
      with 0 by lia.
    rewrite Z.add_0_r, Nat2Z.id, take_ge, drop_ge by lia.
    by rewrite app_nil_r.
  - assert ((if i <? 0 then Z.max (Z.of_nat (length s) + i) 0
             else Z.min i (Z.of_nat (length s))) = 0) as ->
      by (destruct (Z.ltb_spec i 0); lia).
    destruct s as [|y s]; [done|].
    replace (Z.min (Z.max 1 0) (Z.of_nat (length (y :: s)) - 0)) with 1
      by (simpl length; lia).
    done.
Qed.

Lemma remove_out_of_range_witness :
  (Z.of_nat (length [10; 20]) <= 2 /\ Ops.remove [10; 20] 2 = [10; 20])
  /\ (-2 <= - Z.of_nat (length [10; 20]) /\ Ops.remove [10; 20] (-2) = drop 1 [10; 20]).
Proof.
  split.
  - split; [simpl; lia|]. apply (proj1 (remove_out_of_range [10; 20] 2)). simpl; lia.
  - split; [simpl; lia|]. apply (proj2 (remove_out_of_range [10; 20] (-2))). simpl; lia.
Defined.

(** X3.  After [ops.add] at an index in range, the item is at that index,
    the items before it are where they were, and the items from that index on
    are one place later. *)
Theorem add_lookup {A} (s : list A) (x : A) (n : nat) :
  (n <= length s)%nat ->
  Ops.add s (Z.of_nat n) x !! n = Some x
  /\ (forall j, (j < n)%nat -> Ops.add s (Z.of_nat n) x !! j = s !! j)
  /\ (forall j, (n <= j)%nat -> Ops.add s (Z.of_nat n) x !! S j = s !! j).
Proof.
  intros Hn. rewrite add_in_range by lia. rewrite Nat2Z.id.
  assert (Hlen : length (take n s) = n) by (rewrite length_take; lia).
  split; [|split].
  - by rewrite list_lookup_middle.
  - intros j Hj. rewrite lookup_app_l by lia. by apply lookup_take_lt.
  - intros j Hj. rewrite lookup_app_r by lia. rewrite Hlen.
    replace (S j - n)%nat with (S (j - n)) by lia. simpl.
    rewrite lookup_drop. f_equal. lia.
Qed.

Lemma add_lookup_witness :
  (1 <= length [10; 20; 30])%nat
  /\ Ops.add [10; 20; 30] (Z.of_nat 1) 15 !! 1%nat = Some 15.
Proof.
  split; [simpl; lia|].
  apply (proj1 (add_lookup [10; 20; 30] 15 1 ltac:(simpl; lia))).
Defined.

(** X4.  After [ops.remove] at an index in range, the sequence is one item
    shorter, the items before the index are where they were and the items
    after it are one place earlier. *)
Theorem remove_lookup {A} (s : list A) (n : nat) :
  (n < length s)%nat ->
  length (Ops.remove s (Z.of_nat n)) = (length s - 1)%nat
  /\ (forall j, (j < n)%nat -> Ops.remove s (Z.of_nat n) !! j = s !! j)
  /\ (forall j, (n <= j)%nat -> Ops.remove s (Z.of_nat n) !! j = s !! S j).
Proof.
  intros Hn. rewrite remove_in_range by lia. rewrite Nat2Z.id.
  rewrite <- delete_take_drop. split; [|split].
  - rewrite length_delete; [lia|]. by apply lookup_lt_is_Some.
  - intros j Hj. by apply list_lookup_delete_lt.
  - intros j Hj. by apply list_lookup_delete_ge.
Qed.

Lemma remove_lookup_witness :
  (1 < length [10; 20; 30])%nat
  /\ length (Ops.remove [10; 20; 30] (Z.of_nat 1)) = (length [10; 20; 30] - 1)%nat.
Proof.
  split; [simpl; lia|].
  apply (proj1 (remove_lookup [10; 20; 30] 1 ltac:(simpl; lia))).
Defined.

(** X5.  Removing the item at an index in range and inserting it again at
    the same index gives back the sequence. *)
Theorem remove_then_add {A} (s : list A) (x : A) (i : Z) :
  0 <= i < Z.of_nat (length s) ->
  s !! Z.to_nat i = Some x ->
  Ops.add (Ops.remove s i) i x = s.
Proof.
  intros Hi Hx. rewrite remove_in_range by done.
  assert (Hlen : length (take (Z.to_nat i) s) = Z.to_nat i)
    by (rewrite length_take; lia).
  rewrite add_in_range by (rewrite length_app, Hlen; lia).
  rewrite take_app_length', drop_app_length' by done.
  by apply take_drop_middle.
Qed.

Lemma remove_then_add_witness :
  0 <= 1 < Z.of_nat (length [10; 20; 30])
  /\ [10; 20; 30] !! Z.to_nat 1 = Some 20
  /\ Ops.add (Ops.remove [10; 20; 30] 1) 1 20 = [10; 20; 30].
Proof.
  split; [simpl; lia|]. split; [reflexivity|].
  apply (remove_then_add [10; 20; 30] 20 1); [simpl; lia | reflexivity].
Defined.



End MutationBounds.

(** ** Invariants of a controller in use *)


Section Coherent.
Implicit Types (s : System) (w : World) (c : Controller).

Lemma attempts_lookup w i sub :
  subscriptions w !! i = Some sub → attempts w !! i = Some (setLive true sub).
Proof. intros Hi. unfold attempts. by rewrite list_lookup_fmap, Hi. Qed.

Lemma coherent_target s i sub :
  coherent s → subscriptions (env s) !! i = Some sub →
  sub_target sub = data (ctl s).
Proof.
  intros Hco Hi.
  by destruct (co_attempts s Hco i _ (attempts_lookup _ _ _ Hi)).
Qed.

Lemma callUnbind_attempts h policy w :
  attempts (callUnbind h policy w) = attempts w.
Proof.
  unfold attempts, callUnbind.
  destruct (subscriptions w !! h) as [sub|] eqn:Hsub; [|done].
  assert (setLive true <$> <[h := setLive false sub]> (subscriptions w)
          = setLive true <$> subscriptions w) as Hsame.
  { rewrite list_fmap_insert. apply list_insert_id.
    by rewrite list_lookup_fmap, Hsub. }
  by destruct (resetValue (sub_kind sub) policy).
Qed.

Lemma callUnbind_promises h policy w :
  promises (callUnbind h policy w) = promises w.
Proof.
  unfold callUnbind. destruct (subscriptions w !! h) as [sub|]; [|done].
  by destruct (resetValue (sub_kind sub) policy).
Qed.

Lemma callUnbind_length h policy w :
  length (subscriptions (callUnbind h policy w)) = length (subscriptions w).
Proof.
  unfold callUnbind. destruct (subscriptions w !! h) as [sub|]; [|done].
  destruct (resetValue (sub_kind sub) policy); simpl; by rewrite length_insert.
Qed.

(** An unbind procedure writes to the container of its listener only. *)
Lemma callUnbind_frame h policy w l :
  (∀ sub, subscriptions w !! h = Some sub → sub_target sub ≠ l) →
  heap (callUnbind h policy w) !! l = heap w !! l.
Proof.
  intros Hl. unfold callUnbind.
  destruct (subscriptions w !! h) as [sub|]; [|done].
  destruct (resetValue (sub_kind sub) policy); [|done].
  simpl. unfold writeValue. rewrite lookup_alter_ne; [done|]. by apply Hl.
Qed.

Lemma remoteChange_frame h v w l :
  (∀ sub, subscriptions w !! h = Some sub → sub_target sub ≠ l) →
  heap (remoteChange h v w) !! l = heap w !! l.
Proof.
  intros Hl. unfold remoteChange.
  destruct (subscriptions w !! h) as [sub|]; [|done].
  destruct (sub_live sub); [|done].
  simpl. unfold writeValue. rewrite lookup_alter_ne; [done|]. by apply Hl.
Qed.

Lemma bindDatabaseRef_frame s l :
  l ≠ promise (ctl s) →
  heap (env (bindDatabaseRef s)) !! l = heap (env s) !! l.
Proof.
  intros Hl. unfold bindDatabaseRef.
  destruct (isArray _); simpl; unfold writeValue; by rewrite lookup_alter_ne.
Qed.

Lemma callCurrentUnbind_frame s s' l :
  coherent s → callCurrentUnbind s = Some s' → l ≠ data (ctl s) →
  heap (env s') !! l = heap (env s) !! l.
Proof.
  intros Hco Hs' Hl. unfold callCurrentUnbind in Hs'.
  destruct (_unbind (ctl s)) as [h|]; [|done]. injection Hs' as <-. simpl.
  apply callUnbind_frame. intros sub Hsub.
  by rewrite (coherent_target s h sub Hco Hsub).
Qed.

(** The invariant looks at the cells, at [_unbind], at the promises made
    and at the options only. *)
Lemma coherent_ctl s c :
  coherent s →
  data c = data (ctl s) → error c = error (ctl s) →
  pending c = pending (ctl s) → promise c = promise (ctl s) →
  _unbind c = _unbind (ctl s) → createdPromises c = createdPromises (ctl s) →
  options c = options (ctl s) →
  coherent {| ctl := c; env := env s |}.
Proof.
  intros [[Hthere Hapart Hassigned] Hcur Hstarted Hlen Hpromise Hatt Hcreated Hcalls]
    Hd He Hp Hq Hu Hcp Ho.
  split; simpl; rewrite ?Hd, ?He, ?Hp, ?Hq, ?Hu, ?Hcp, ?Ho; try done.
  split; simpl; by rewrite ?Hd, ?He, ?Hp, ?Hq, ?Hu.
Qed.

Lemma coherent_stopWatcher s :
  coherent s → coherent (callStopWatcher s).
Proof.
  intros Hco. unfold callStopWatcher.
  destruct (stopWatcher (ctl s)); try done. by apply coherent_ctl.
Qed.

Lemma coherent_scopeActive b s :
  coherent s → coherent {| ctl := withScopeActive b (ctl s); env := env s |}.
Proof. intros Hco. by apply coherent_ctl. Qed.

Lemma coherent_reference r s :
  coherent s → coherent {| ctl := withReference r (ctl s); env := env s |}.
Proof. intros Hco. by apply coherent_ctl. Qed.

Lemma readValue_lookup (h h' : gmap loc RefObj) l :
  h' !! l = h !! l → readValue l h' = readValue l h.
Proof. unfold readValue. by intros ->. Qed.

Lemma coherent_env s w :
  coherent s →
  wellFormed {| ctl := ctl s; env := w |} →
  length (promises w) = length (promises (env s)) →
  attempts w = attempts (env s) →
  heap w !! promise (ctl s) = heap (env s) !! promise (ctl s) →
  Forall (λ call, call.2 = reset (options (ctl s))) (unbindCalls w) →
  coherent {| ctl := ctl s; env := w |}.
Proof.
  intros [_ Hcur Hstarted Hlen Hpromise Hatt Hcreated _] Hwf Hps Hsame Hq Hcalls.
  assert (Hsubs : length (subscriptions w) = length (subscriptions (env s))).
  { apply (f_equal length) in Hsame. unfold attempts in Hsame.
    by rewrite !length_fmap in Hsame. }
  split; simpl; rewrite ?Hps, ?Hsubs, ?Hsame; try done.
  - intros Hnil. rewrite Hnil in Hsubs. by destruct (subscriptions (env s)).
  - by rewrite (readValue_lookup _ _ _ Hq).
Qed.

Lemma bindDatabaseRef_coherent s :
  coherent s → coherent (bindDatabaseRef s).
Proof.
  intros Hco.
  pose proof (bindDatabaseRef_wellFormed s (co_wellFormed s Hco)) as Hwf.
  destruct Hco as [Hwf0 Hcur Hstarted Hlen Hpromise Hatt Hcreated Hcalls].
  destruct (wellFormed_cells s Hwf0) as ((_ & _ & Hq) & _).
  destruct (bindDatabaseRef_effect s) as (Hsubs & Hunbind & Hcalls' & _).
  assert (Hps : promises (env (bindDatabaseRef s)) = promises (env s) ++ [Pending])
    by (unfold bindDatabaseRef; by destruct (isArray _)).
  assert (Hcells : data (ctl (bindDatabaseRef s)) = data (ctl s)
                   ∧ promise (ctl (bindDatabaseRef s)) = promise (ctl s)
                   ∧ options (ctl (bindDatabaseRef s)) = options (ctl s)
                   ∧ createdPromises (ctl (bindDatabaseRef s))
                     = {[length (promises (env s))]} ∪ createdPromises (ctl s))
    by (unfold bindDatabaseRef; by destruct (isArray _)).
  destruct Hcells as (Hd & Hq' & Ho & Hcp).
  split; rewrite ?Hsubs, ?Hps, ?Hcalls', ?Hd, ?Hq', ?Ho, ?Hcp, ?length_app;
    simpl; try done.
  - rewrite Hunbind. f_equal. lia.
  - by destruct (subscriptions (env s)).
  - lia.
  - pose proof (bindDatabaseRef_fields s Hwf0) as Hfields.
    unfold stateFields in Hfields. rewrite Hq' in Hfields.
    injection Hfields as _ _ ->. f_equal. lia.
  - intros i sub. unfold attempts. rewrite Hsubs, fmap_app. simpl.
    intros Hi. apply lookup_app_Some in Hi as [Hi|[Hge Hi]].
    + by apply Hatt.
    + rewrite length_fmap in Hge, Hi.
      destruct (i - length (subscriptions (env s))) as [|n] eqn:Hn; [|done].
      injection Hi as <-. simpl. split; [done|]. lia.
  - intros p. rewrite elem_of_union, elem_of_singleton, Hcreated. lia.
Qed.

Lemma callCurrentUnbind_coherent s s' :
  coherent s → callCurrentUnbind s = Some s' → coherent s'.
Proof.
  intros Hco Hs'.
  destruct (callCurrentUnbind_wellFormed s (co_wellFormed s Hco))
    as (s'' & Hs'' & Hwf).
  assert (s'' = s') as -> by congruence. clear Hs''.
  assert (Hframe : heap (env s') !! promise (ctl s)
                   = heap (env s) !! promise (ctl s)).
  { apply (callCurrentUnbind_frame s s'); [done..|].
    destruct (co_wellFormed s Hco) as [_ Hapart _].
    apply NoDup_cons in Hapart as [Hd _]. rewrite !not_elem_of_cons in Hd.
    intros Heq. destruct Hd as (_ & _ & Hd & _). by apply Hd. }
  unfold callCurrentUnbind in Hs'.
  destruct (_unbind (ctl s)) as [h|]; [|done]. injection Hs' as <-.
  apply coherent_env; try done; simpl in *.
  - by rewrite callUnbind_promises.
  - apply callUnbind_attempts.
  - rewrite callUnbind_calls. apply Forall_app. split; [by destruct Hco|].
    by apply Forall_singleton.
Qed.

Lemma step_coherent e s s' :
  coherent s → step e s = Some s' → coherent s'.
Proof.
  intros Hco Hs'.
  destruct (step_wellFormed e s (co_wellFormed s Hco)) as (s'' & Hs'' & Hwf).
  assert (s'' = s') as -> by congruence. clear Hs''.
  destruct (wellFormed_cells s (co_wellFormed s Hco))
    as (_ & Hep & Heq & Hpq).
  destruct e as [r|p v|p reason|h v| |]; simpl in Hs'.
  - injection Hs' as <-. unfold setReference.
    destruct (reference (ctl s)) as [r0|r0]; [done|].
    destruct (decide (r = r0)); [done|].
    destruct (stopWatcher (ctl s));
      [|apply bindDatabaseRef_coherent|]; by apply coherent_reference.
  - injection Hs' as <-. unfold resolvePromise in *.
    destruct (promises (env s) !! p) as [[| |]|]; try done.
    apply (coherent_env s); try done; simpl.
    + by rewrite length_insert.
    + unfold writeValue. by rewrite lookup_alter_ne.
    + by destruct Hco.
  - injection Hs' as <-. unfold rejectPromise in *.
    destruct (promises (env s) !! p) as [[| |]|]; try done.
    apply (coherent_env s); try done; simpl.
    + by rewrite length_insert.
    + unfold writeValue. by rewrite !lookup_alter_ne.
    + by destruct Hco.
  - injection Hs' as <-. apply (coherent_env s); try done; simpl.
    + unfold remoteChange. destruct (subscriptions (env s) !! h) as [sub|]; [|done].
      by destruct (sub_live sub).
    + unfold remoteChange. destruct (subscriptions (env s) !! h) as [sub|]; [|done].
      by destruct (sub_live sub).
    + apply remoteChange_frame. intros sub Hsub.
      rewrite (coherent_target s h sub Hco Hsub).
      destruct (co_wellFormed s Hco) as [_ Hapart _].
      apply NoDup_cons in Hapart as [Hd _]. rewrite !not_elem_of_cons in Hd.
      by destruct Hd as (_ & _ & Hd & _).
    + unfold remoteChange. destruct (subscriptions (env s) !! h) as [sub|];
        [|by destruct Hco].
      destruct (sub_live sub); by destruct Hco.
  - unfold scopeStop, onScopeDisposeCallback in Hs'.
    change stopEffects with callStopWatcher in Hs'.
    destruct (hasCurrentScope (ctl s) && scopeActive (ctl s)).
    + eapply callCurrentUnbind_coherent; [|exact Hs'].
      by apply coherent_stopWatcher, coherent_scopeActive.
    + by injection Hs' as <-.
  - unfold unbind in Hs'.
    eapply callCurrentUnbind_coherent; [|exact Hs'].
    by apply coherent_stopWatcher.
Qed.

Lemma run_coherent events s s' :
  coherent s → run events s = Some s' → coherent s'.
Proof.
  revert s. induction events as [|e events IH]; intros s Hco Hrun; simpl in Hrun.
  - by injection Hrun as <-.
  - destruct (step e s) as [s1|] eqn:Hstep; [|done]. simpl in Hrun.
    eauto using step_coherent.
Qed.

Lemma setup_created given opts scope h0 :
  createdPromises (ctl (setup given opts scope h0)) = ∅
  ∧ promises (env (setup given opts scope h0)) = [].
Proof. unfold setup, ref. by destruct (target opts). Qed.

Lemma returned_created given opts scope h0 handle s :
  _useDatabaseRef given opts scope h0 = Some (handle, s) →
  createdPromises (ctl s) = {[0]} ∪ ∅.
Proof.
  unfold _useDatabaseRef. destruct (setup_created given opts scope h0) as [Hc Hp].
  set (s0 := setup given opts scope h0) in *.
  assert (createdPromises
            (ctl (if isRef given then watchImmediate s0 else bindDatabaseRef s0))
          = {[0]} ∪ ∅) as Hcreated.
  { destruct (isRef given); unfold watchImmediate, bindDatabaseRef;
      destruct (isArray _); simpl; by rewrite Hc, Hp. }
  destruct (defineProperties _ _ _); [|done]. simpl. by intros [= _ <-].
Qed.

Lemma setUp_coherent given opts scope h0 handle s :
  _useDatabaseRef given opts scope h0 = Some (handle, s) →
  setUp given opts scope h0 s → coherent s.
Proof.
  intros Hs Hup. pose proof (returned_created _ _ _ _ _ _ Hs) as Hcreated.
  destruct Hup as [Hwf _ _ Hcurrent _ _ Hpromises Hcalls _ _ Hsubs Hfields _].
  split; rewrite ?Hsubs, ?Hpromises, ?Hcalls; simpl; try done.
  - unfold stateFields in Hfields. by injection Hfields as _ _ ->.
  - intros i sub. unfold attempts. rewrite Hsubs. simpl.
    destruct i as [|i]; [|done]. by intros [= <-].
  - intros p. rewrite Hcreated, elem_of_union, elem_of_singleton, elem_of_empty.
    lia.
Qed.

Lemma started_coherent given opts scope h0 events s :
  targetIsCell opts h0 →
  started given opts scope h0 events = Some s → coherent s.
Proof.
  intros Hcell Hs. unfold started in Hs.
  destruct (_useDatabaseRef given opts scope h0) as [[handle s0]|] eqn:Hs0;
    [|done].
  simpl in Hs. apply (run_coherent events s0); [|done].
  pose proof (returned_accepts _ _ _ _ _ _ Hcell Hs0) as Hacc.
  destruct (construct given opts scope h0 Hacc) as (s1 & Hs1 & Hup).
  assert (s1 = s0) as -> by congruence.
  by apply (setUp_coherent given opts scope h0 handle).
Qed.

End Coherent.

Section Runs.
Implicit Types (s : System) (e : Event).

(** No step changes which cells the controller has, nor its options. *)
Lemma step_ctl e s s' :
  step e s = Some s' →
  data (ctl s') = data (ctl s) ∧ error (ctl s') = error (ctl s)
  ∧ pending (ctl s') = pending (ctl s) ∧ promise (ctl s') = promise (ctl s)
  ∧ options (ctl s') = options (ctl s).
Proof.
  destruct e as [r|p v|p reason|h v| |]; simpl.
  - intros [= <-]. unfold setReference.
    destruct (reference (ctl s)); [done|]. destruct (decide _); [done|].
    destruct (stopWatcher (ctl s)); try done.
    unfold bindDatabaseRef. by destruct (isArray _).
  - intros [= <-]. unfold resolvePromise.
    by destruct (promises (env s) !! p) as [[| |]|].
  - intros [= <-]. unfold rejectPromise.
    by destruct (promises (env s) !! p) as [[| |]|].
  - by intros [= <-].
  - unfold scopeStop, onScopeDisposeCallback.
    change stopEffects with callStopWatcher.
    destruct (hasCurrentScope (ctl s) && scopeActive (ctl s)); [|by intros [= <-]].
    intros Hs'. apply callCurrentUnbind_effect in Hs' as [-> _].
    unfold callStopWatcher. simpl. by destruct (stopWatcher (ctl s)).
  - unfold unbind. intros Hs'. apply callCurrentUnbind_effect in Hs' as [-> _].
    unfold callStopWatcher. by destruct (stopWatcher (ctl s)).
Qed.

Lemma step_writes e e' s s' :
  step e s = Some s' → writes e' (ctl s') = writes e' (ctl s).
Proof.
  intros Hs'. destruct (step_ctl e s s' Hs') as (Hd & He & Hp & Hq & _).
  unfold writes. by rewrite Hd, He, Hp, Hq.
Qed.

(** A step leaves every cell it does not write. *)
Lemma step_frame e s s' l :
  coherent s → step e s = Some s' → l ∉ writes e (ctl s) →
  heap (env s') !! l = heap (env s) !! l.
Proof.
  intros Hco Hs' Hl. unfold writes in Hl.
  destruct e as [r|p v|p reason|h v| |]; simpl in Hs';
    rewrite ?not_elem_of_cons in Hl.
  - injection Hs' as <-. unfold setReference.
    destruct (reference (ctl s)); [done|]. destruct (decide _); [done|].
    destruct (stopWatcher (ctl s)); try done.
    rewrite bindDatabaseRef_frame; [done|]. simpl. by destruct Hl.
  - injection Hs' as <-. unfold resolvePromise.
    destruct (promises (env s) !! p) as [[| |]|]; try done. simpl.
    unfold writeValue. rewrite lookup_alter_ne; [done|]. by destruct Hl.
  - injection Hs' as <-. unfold rejectPromise.
    destruct (promises (env s) !! p) as [[| |]|]; try done. simpl.
    destruct Hl as (He & Hp & _).
    unfold writeValue. by rewrite !lookup_alter_ne.
  - injection Hs' as <-. simpl. apply remoteChange_frame.
    intros sub Hsub. rewrite (coherent_target s h sub Hco Hsub).
    by destruct Hl.
  - unfold scopeStop, onScopeDisposeCallback in Hs'.
    change stopEffects with callStopWatcher in Hs'.
    destruct (hasCurrentScope (ctl s) && scopeActive (ctl s));
      [|by injection Hs' as <-].
    set (s0 := {| ctl := withScopeActive false (ctl s); env := env s |}) in *.
    rewrite (callCurrentUnbind_frame (callStopWatcher s0) s' l); try done.
    + unfold callStopWatcher. by destruct (stopWatcher (ctl s0)).
    + by apply coherent_stopWatcher, coherent_scopeActive.
    + unfold callStopWatcher. destruct (stopWatcher (ctl s0)); simpl;
        by destruct Hl.
  - unfold unbind in Hs'.
    rewrite (callCurrentUnbind_frame (callStopWatcher s) s' l); try done.
    + unfold callStopWatcher. by destruct (stopWatcher (ctl s)).
    + by apply coherent_stopWatcher.
    + unfold callStopWatcher. destruct (stopWatcher (ctl s)); simpl;
        by destruct Hl.
Qed.

Lemma run_frame_coherent events s s' l :
  coherent s → run events s = Some s' →
  Forall (λ e, l ∉ writes e (ctl s)) events →
  heap (env s') !! l = heap (env s) !! l.
Proof.
  revert s. induction events as [|e events IH]; intros s Hco Hrun Hl;
    simpl in Hrun.
  - by injection Hrun as <-.
  - destruct (step e s) as [s1|] eqn:Hstep; [|done]. simpl in Hrun.
    apply Forall_cons in Hl as [Hle Hl].
    rewrite (IH s1); [by apply (step_frame e s)|by apply (step_coherent e s)|done|].
    eapply Forall_impl; [exact Hl|]. intros e' He'. simpl in *.
    by rewrite (step_writes e e' s s1).
Qed.

End Runs.

(** X7.  After a controller has been set up and has gone through any events,
    further events leave every cell of the heap they do not write: a
    change of the reference writes [promise] only, a resolution [pending]
    only, a rejection [error] and [pending] only, and a change of a source
    and a teardown the container only. *)
Theorem events_write_their_cells_only given opts scope h0 events s more s' l :
  targetIsCell opts h0 →
  started given opts scope h0 events = Some s →
  run more s = Some s' →
  Forall (λ e, l ∉ writes e (ctl s)) more →
  heap (env s') !! l = heap (env s) !! l.
Proof.
  intros Hcell Hs Hrun Hl.
  apply (run_frame_coherent more s s' l); try done.
  by apply (started_coherent given opts scope h0 events).
Qed.

Lemma events_write_their_cells_only_witness :
  ∃ s s',
    started (Observable 0) noOptions false ∅ [] = Some s
    ∧ run [SetReference 1; Resolve 1 VNull] s = Some s'
    ∧ Forall (λ e, error (ctl s) ∉ writes e (ctl s))
        [SetReference 1; Resolve 1 VNull]
    ∧ heap (env s') !! error (ctl s) = heap (env s) !! error (ctl s).
Proof.
  assert (Hcells :
            (s ← started (Observable 0) noOptions false ∅ [];
             _ ← run [SetReference 1; Resolve 1 VNull] s;
             Some (error (ctl s), pending (ctl s), promise (ctl s)))
            = Some (1, 2, 3)) by (vm_compute; reflexivity).
  destruct (started (Observable 0) noOptions false ∅ []) as [s|] eqn:Hs;
    [|discriminate].
  cbn [mbind option_bind] in Hcells.
  destruct (run [SetReference 1; Resolve 1 VNull] s) as [s'|] eqn:Hrun;
    [|discriminate].
  injection Hcells as He Hp Hq.
  assert (Hl : Forall (λ e, error (ctl s) ∉ writes e (ctl s))
                 [SetReference 1; Resolve 1 VNull]).
  { repeat apply Forall_cons_2; [..|apply Forall_nil_2]; simpl;
      rewrite He, ?Hp, ?Hq, not_elem_of_cons;
      (split; [lia|apply not_elem_of_nil]). }
  exists s, s'. split; [reflexivity|]. split; [exact Hrun|]. split; [exact Hl|].
  exact (events_write_their_cells_only (Observable 0) noOptions false ∅ []
           s _ s' _ I Hs Hrun Hl).
Defined.

Section Fields.
Implicit Types (s : System) (e : Event).

Lemma step_pending e s s' :
  coherent s → step e s = Some s' →
  readValue (pending (ctl s')) (heap (env s'))
  = readValue (pending (ctl s)) (heap (env s))
  ∨ readValue (pending (ctl s')) (heap (env s')) = VBool false.
Proof.
  intros Hco Hs'.
  destruct (step_ctl e s s' Hs') as (_ & _ & Hp & _). rewrite Hp.
  pose proof (co_wellFormed s Hco) as Hwf.
  destruct (wellFormed_cells s Hwf) as (_ & Hep & Heq & Hpq).
  assert (Hdp : data (ctl s) ≠ pending (ctl s)).
  { destruct Hwf as [_ Hapart _].
    apply NoDup_cons in Hapart as [Hd _]. rewrite !not_elem_of_cons in Hd.
    by destruct Hd as (_ & Hd & _). }
  assert (Hframe : pending (ctl s) ∉ writes e (ctl s) →
            readValue (pending (ctl s)) (heap (env s'))
            = readValue (pending (ctl s)) (heap (env s))).
  { intros Hl. apply readValue_lookup. by apply (step_frame e s). }
  destruct e as [r|p v|p reason|h v| |]; simpl in Hs'.
  - left. apply Hframe. simpl. rewrite not_elem_of_cons.
    split; [done|apply not_elem_of_nil].
  - injection Hs' as <-.
    destruct (promises (env s) !! p) as [[| |]|] eqn:Hpromise;
      try (left; unfold resolvePromise; by rewrite Hpromise).
    right. pose proof (resolvePromise_fields p v s Hwf Hpromise) as Hfields.
    unfold stateFields in Hfields.
    assert (pending (ctl (resolvePromise p v s)) = pending (ctl s)) as Hsame
      by (unfold resolvePromise; by rewrite Hpromise).
    rewrite Hsame in Hfields. by injection Hfields as _ -> _.
  - injection Hs' as <-.
    destruct (promises (env s) !! p) as [[| |]|] eqn:Hpromise;
      try (left; unfold rejectPromise; by rewrite Hpromise).
    right. pose proof (rejectPromise_fields p reason s Hwf Hpromise) as Hfields.
    unfold stateFields in Hfields.
    assert (pending (ctl (rejectPromise p reason s)) = pending (ctl s)) as Hsame
      by (unfold rejectPromise; by rewrite Hpromise).
    rewrite Hsame in Hfields. by injection Hfields as _ -> _.
  - left. apply Hframe. simpl. rewrite not_elem_of_cons.
    split; [cells_apart|apply not_elem_of_nil].
  - left. apply Hframe. simpl. rewrite not_elem_of_cons.
    split; [cells_apart|apply not_elem_of_nil].
  - left. apply Hframe. simpl. rewrite not_elem_of_cons.
    split; [cells_apart|apply not_elem_of_nil].
Qed.

Lemma run_pending events s s' :
  coherent s → run events s = Some s' →
  readValue (pending (ctl s)) (heap (env s)) = VBool false →
  readValue (pending (ctl s')) (heap (env s')) = VBool false.
Proof.
  revert s. induction events as [|e events IH]; intros s Hco Hrun Hfalse;
    simpl in Hrun.
  - by injection Hrun as <-.
  - destruct (step e s) as [s1|] eqn:Hstep; [|done]. simpl in Hrun.
    apply (IH s1); [by apply (step_coherent e s)|done|].
    destruct (step_pending e s s1 Hco Hstep) as [Hsame|Hset]; congruence.
Qed.

End Fields.

(** X8.  Once [pending] is false it is false for good: no event, a rebind
    included, sets it to true again. *)
Theorem pending_stays_false given opts scope h0 events s more s' :
  targetIsCell opts h0 →
  started given opts scope h0 events = Some s →
  readValue (pending (ctl s)) (heap (env s)) = VBool false →
  run more s = Some s' →
  readValue (pending (ctl s')) (heap (env s')) = VBool false.
Proof.
  intros Hcell Hs Hfalse Hrun.
  apply (run_pending more s s'); try done.
  by apply (started_coherent given opts scope h0 events).
Qed.

Lemma pending_stays_false_witness :
  ∃ s s',
    started (Observable 0) noOptions false ∅ [Resolve 0 VNull] = Some s
    ∧ readValue (pending (ctl s)) (heap (env s)) = VBool false
    ∧ run [SetReference 1; RemoteChange 1 (VNum 5)] s = Some s'
    ∧ readValue (pending (ctl s')) (heap (env s')) = VBool false.
Proof.
  assert (Hfalse :
            (s ← started (Observable 0) noOptions false ∅ [Resolve 0 VNull];
             _ ← run [SetReference 1; RemoteChange 1 (VNum 5)] s;
             Some (readValue (pending (ctl s)) (heap (env s))))
            = Some (VBool false)) by (vm_compute; reflexivity).
  destruct (started (Observable 0) noOptions false ∅ [Resolve 0 VNull])
    as [s|] eqn:Hs; [|discriminate].
  cbn [mbind option_bind] in Hfalse.
  destruct (run [SetReference 1; RemoteChange 1 (VNum 5)] s) as [s'|] eqn:Hrun;
    [|discriminate].
  injection Hfalse as Hfalse.
  exists s, s'. split; [reflexivity|]. split; [exact Hfalse|].
  split; [exact Hrun|].
  exact (pending_stays_false (Observable 0) noOptions false ∅ [Resolve 0 VNull]
           s _ s' I Hs Hfalse Hrun).
Defined.

(** X9.  At every moment there is one promise, one entry of
    [createdPromises] and one listener per bind attempt made so far; every
    listener is on the container of the controller and settles the promise of
    its own attempt; [_unbind] is the unbind procedure of the latest attempt
    and [promise] holds its promise. *)
Theorem one_promise_per_attempt given opts scope h0 events s :
  targetIsCell opts h0 →
  started given opts scope h0 events = Some s →
  length (promises (env s)) = length (subscriptions (env s))
  ∧ (∀ p, p ∈ createdPromises (ctl s) ↔ p < length (promises (env s)))
  ∧ (∃ latest, length (subscriptions (env s)) = S latest
               ∧ _unbind (ctl s) = Some latest
               ∧ readValue (promise (ctl s)) (heap (env s)) = VPromise latest)
  ∧ ∀ i sub, subscriptions (env s) !! i = Some sub →
      sub_target sub = data (ctl s) ∧ sub_promise sub = i.
Proof.
  intros Hcell Hs.
  pose proof (started_coherent _ _ _ _ _ _ Hcell Hs) as Hco.
  destruct Hco as [_ Hcur Hstarted Hlen Hpromise Hatt Hcreated _].
  split; [done|]. split; [done|]. split.
  - destruct (subscriptions (env s)) as [|sub subs] eqn:Hsubs; [done|].
    exists (length subs). simpl in *. by rewrite Hpromise, Hlen.
  - intros i sub Hi. by apply (Hatt i (setLive true sub)), attempts_lookup.
Qed.

Lemma one_promise_per_attempt_witness :
  ∃ s, started (Observable 0) noOptions false ∅ [SetReference 1; Unbind] = Some s
       ∧ length (promises (env s)) = length (subscriptions (env s))
       ∧ ∃ latest, length (subscriptions (env s)) = S latest
                   ∧ _unbind (ctl s) = Some latest
                   ∧ readValue (promise (ctl s)) (heap (env s)) = VPromise latest.
Proof.
  assert (Hreturns :
            is_Some (started (Observable 0) noOptions false ∅
                       [SetReference 1; Unbind]))
    by (vm_compute; eauto).
  destruct (started (Observable 0) noOptions false ∅ [SetReference 1; Unbind])
    as [s|] eqn:Hs; [|by destruct Hreturns].
  exists s. split; [reflexivity|].
  destruct (one_promise_per_attempt (Observable 0) noOptions false ∅
              [SetReference 1; Unbind] s I Hs) as (Hlen & _ & Hlatest & _).
  split; [exact Hlen | exact Hlatest].
Defined.

(** X10.  Every call the controller makes to an unbind procedure passes the
    [reset] of its options. *)
Theorem teardown_passes_reset given opts scope h0 events s :
  targetIsCell opts h0 →
  started given opts scope h0 events = Some s →
  Forall (λ call, call.2 = reset opts) (unbindCalls (env s)).
Proof.
  intros Hcell Hs.
  pose proof (started_coherent _ _ _ _ _ _ Hcell Hs) as Hco.
  assert (options (ctl s) = opts) as <-; [|by destruct Hco].
  unfold started in Hs.
  destruct (_useDatabaseRef given opts scope h0) as [[handle s0]|] eqn:Hs0;
    [|done].
  simpl in Hs.
  pose proof (returned_accepts _ _ _ _ _ _ Hcell Hs0) as Hacc.
  destruct (construct given opts scope h0 Hacc) as (s1 & Hs1 & Hup).
  assert (s1 = s0) as -> by congruence.
  rewrite <- (su_options _ _ _ _ _ Hup). clear -Hs.
  revert s0 Hs. induction events as [|e events IH]; intros s0 Hrun; simpl in Hrun.
  - by injection Hrun as <-.
  - destruct (step e s0) as [s1|] eqn:Hstep; [|done]. simpl in Hrun.
    rewrite (IH s1 Hrun). by destruct (step_ctl e s0 s1 Hstep) as (_ & _ & _ & _ & ->).
Qed.

Lemma teardown_passes_reset_witness :
  ∃ s, started (Observable 0)
         {| target := PropAbsent; initialValue := VUndefined;
            reset := ResetBool false |} true ∅
         [SetReference 1; ScopeDispose; Unbind] = Some s
       ∧ Forall (λ call, call.2 = ResetBool false) (unbindCalls (env s)).
Proof.
  assert (Hreturns :
            is_Some (started (Observable 0)
                       {| target := PropAbsent; initialValue := VUndefined;
                          reset := ResetBool false |} true ∅
                       [SetReference 1; ScopeDispose; Unbind]))
    by (vm_compute; eauto).
  destruct (started (Observable 0)
              {| target := PropAbsent; initialValue := VUndefined;
                 reset := ResetBool false |} true ∅
              [SetReference 1; ScopeDispose; Unbind])
    as [s|] eqn:Hs; [|by destruct Hreturns].
  exists s. split; [reflexivity|].
  exact (teardown_passes_reset (Observable 0)
           {| target := PropAbsent; initialValue := VUndefined;
              reset := ResetBool false |} true ∅
           [SetReference 1; ScopeDispose; Unbind] s I Hs).
Defined.

Section Teardown.
Implicit Types (s : System) (e : Event).

Lemma step_subscriptions e s s' h :
  coherent s → step e s = Some s' →
  S h < length (subscriptions (env s)) →
  subscriptions (env s') !! h = subscriptions (env s) !! h
  ∧ length (subscriptions (env s)) ≤ length (subscriptions (env s')).
Proof.
  intros Hco Hs' Hh.
  assert (Hcall : ∀ s0 s1, coherent s0 → callCurrentUnbind s0 = Some s1 →
            S h < length (subscriptions (env s0)) →
            subscriptions (env s1) !! h = subscriptions (env s0) !! h
            ∧ length (subscriptions (env s0)) ≤ length (subscriptions (env s1))).
  { intros s0 s1 Hco0 Hs1 Hh0. unfold callCurrentUnbind in Hs1.
    rewrite (co_current s0 Hco0) in Hs1. injection Hs1 as <-. simpl.
    rewrite callUnbind_length. split; [|done]. unfold callUnbind.
    destruct (subscriptions (env s0) !! _) as [sub|]; [|done].
    destruct (resetValue (sub_kind sub) _); simpl;
      rewrite list_lookup_insert_ne; (done || lia). }
  destruct e as [r|p v|p reason|h' v| |]; simpl in Hs'.
  - injection Hs' as <-. unfold setReference.
    destruct (reference (ctl s)); [done|]. destruct (decide _); [done|].
    destruct (stopWatcher (ctl s)); try done.
    set (s1 := {| ctl := withReference (Observable r) (ctl s); env := env s |}).
    destruct (bindDatabaseRef_effect s1) as (-> & _). simpl.
    rewrite length_app, lookup_app_l by lia. split; [done|lia].
  - injection Hs' as <-. unfold resolvePromise.
    by destruct (promises (env s) !! p) as [[| |]|].
  - injection Hs' as <-. unfold rejectPromise.
    by destruct (promises (env s) !! p) as [[| |]|].
  - injection Hs' as <-. simpl. unfold remoteChange.
    destruct (subscriptions (env s) !! h') as [sub|]; [|done].
    by destruct (sub_live sub).
  - unfold scopeStop, onScopeDisposeCallback in Hs'.
    change stopEffects with callStopWatcher in Hs'.
    destruct (hasCurrentScope (ctl s) && scopeActive (ctl s));
      [|by injection Hs' as <-].
    set (s0 := {| ctl := withScopeActive false (ctl s); env := env s |}) in *.
    assert (env (callStopWatcher s0) = env s) as Henv
      by (unfold callStopWatcher; by destruct (stopWatcher (ctl s0))).
    rewrite <- Henv. apply Hcall; [|done|by rewrite Henv].
    by apply coherent_stopWatcher, coherent_scopeActive.
  - unfold unbind in Hs'.
    assert (env (callStopWatcher s) = env s) as Henv
      by (unfold callStopWatcher; by destruct (stopWatcher (ctl s))).
    rewrite <- Henv. apply Hcall; [|done|by rewrite Henv].
    by apply coherent_stopWatcher.
Qed.

Lemma run_subscriptions events s s' h :
  coherent s → run events s = Some s' →
  S h < length (subscriptions (env s)) →
  subscriptions (env s') !! h = subscriptions (env s) !! h.
Proof.
  revert s. induction events as [|e events IH]; intros s Hco Hrun Hh;
    simpl in Hrun.
  - by injection Hrun as <-.
  - destruct (step e s) as [s1|] eqn:Hstep; [|done]. simpl in Hrun.
    destruct (step_subscriptions e s s1 h Hco Hstep Hh) as [<- Hlen].
    apply (IH s1); [by apply (step_coherent e s)|done|lia].
Qed.

Lemma step_stopped e s s' :
  stopWatcher (ctl s) ≠ Watching → step e s = Some s' →
  stopWatcher (ctl s') ≠ Watching ∧ boundSources s' = boundSources s.
Proof.
  intros Hw Hs'. destruct (step_effect e s s' Hs') as (_ & Hbound & Hkeep).
  split.
  - destruct e as [r|p v|p reason|h v| |];
      try (rewrite Hkeep; done); simpl in Hs'.
    + unfold scopeStop, onScopeDisposeCallback in Hs'.
      change stopEffects with callStopWatcher in Hs'.
      destruct (hasCurrentScope (ctl s) && scopeActive (ctl s));
        [|by injection Hs' as <-].
      apply callCurrentUnbind_effect in Hs' as [-> _].
      apply callStopWatcher_effect.
    + unfold unbind in Hs'. apply callCurrentUnbind_effect in Hs' as [-> _].
      apply callStopWatcher_effect.
  - rewrite Hbound. unfold reboundBy.
    destruct e; try apply app_nil_r.
    destruct (reference (ctl s)); [apply app_nil_r|].
    destruct (stopWatcher (ctl s)); [|done|]; apply app_nil_r.
Qed.

Lemma run_stopped events s s' :
  stopWatcher (ctl s) ≠ Watching → run events s = Some s' →
  boundSources s' = boundSources s.
Proof.
  revert s. induction events as [|e events IH]; intros s Hw Hrun; simpl in Hrun.
  - by injection Hrun as <-.
  - destruct (step e s) as [s1|] eqn:Hstep; [|done]. simpl in Hrun.
    destruct (step_stopped e s s1 Hw Hstep) as [Hw1 <-]. by apply (IH s1).
Qed.

Lemma unbind_effect s h :
  _unbind (ctl s) = Some h →
  ∃ s1, unbind s = Some s1
        ∧ _unbind (ctl s1) = Some h
        ∧ options (ctl s1) = options (ctl s)
        ∧ unbindCalls (env s1)
          = unbindCalls (env s) ++ [(h, reset (options (ctl s)))].
Proof.
  intros Hh. unfold unbind, callCurrentUnbind.
  assert (_unbind (ctl (callStopWatcher s)) = Some h
          ∧ options (ctl (callStopWatcher s)) = options (ctl s)
          ∧ env (callStopWatcher s) = env s) as (-> & Ho & Henv)
    by (unfold callStopWatcher; by destruct (stopWatcher (ctl s))).
  simpl. eexists. split; [done|]. simpl.
  unfold callStopWatcher at 1 2. rewrite callUnbind_calls, Ho, Henv.
  by destruct (stopWatcher (ctl s)).
Qed.

End Teardown.

(** X11.  A listener that has been superseded by a rebind is never touched
    again: whatever happens afterwards, [unbind()] and the end of the scope
    included, it stays as it is, attached if it was attached. *)
Theorem superseded_listener_stays given opts scope h0 events s more s' h :
  targetIsCell opts h0 →
  started given opts scope h0 events = Some s →
  S h < length (subscriptions (env s)) →
  run more s = Some s' →
  subscriptions (env s') !! h = subscriptions (env s) !! h.
Proof.
  intros Hcell Hs Hh Hrun.
  apply (run_subscriptions more s s' h); try done.
  by apply (started_coherent given opts scope h0 events).
Qed.

Lemma superseded_listener_stays_witness :
  ∃ s s',
    started (Observable 0) noOptions true ∅ [SetReference 1] = Some s
    ∧ S 0 < length (subscriptions (env s))
    ∧ run [Unbind; ScopeDispose] s = Some s'
    ∧ subscriptions (env s') !! 0 = subscriptions (env s) !! 0.
Proof.
  assert (Hlen :
            (s ← started (Observable 0) noOptions true ∅ [SetReference 1];
             _ ← run [Unbind; ScopeDispose] s;
             Some (length (subscriptions (env s))))
            = Some 2) by (vm_compute; reflexivity).
  destruct (started (Observable 0) noOptions true ∅ [SetReference 1])
    as [s|] eqn:Hs; [|discriminate].
  cbn [mbind option_bind] in Hlen.
  destruct (run [Unbind; ScopeDispose] s) as [s'|] eqn:Hrun; [|discriminate].
  injection Hlen as Hlen.
  assert (Hh : S 0 < length (subscriptions (env s))) by (rewrite Hlen; lia).
  exists s, s'. split; [reflexivity|]. split; [exact Hh|]. split; [exact Hrun|].
  exact (superseded_listener_stays (Observable 0) noOptions true ∅
           [SetReference 1] s _ s' 0 I Hs Hh Hrun).
Defined.

(** X12.  After [unbind()] no event starts a bind attempt: a later change of
    the reference cell binds nothing. *)
Theorem unbind_ends_binding s s1 events s2 :
  unbind s = Some s1 →
  run events s1 = Some s2 →
  boundSources s2 = boundSources s.
Proof.
  intros Hs1 Hrun. unfold unbind in Hs1.
  pose proof (callCurrentUnbind_effect _ _ Hs1) as [Hctl Hbound].
  destruct (callStopWatcher_effect s) as (_ & Hbound' & Hw).
  rewrite (run_stopped events s1 s2); [congruence| by rewrite Hctl | done].
Qed.

Lemma unbind_ends_binding_witness :
  ∃ s s1 s2,
    started (Observable 0) noOptions false ∅ [] = Some s
    ∧ unbind s = Some s1
    ∧ run [SetReference 1; SetReference 2] s1 = Some s2
    ∧ boundSources s2 = boundSources s.
Proof.
  assert (Hreturns :
            is_Some (s ← started (Observable 0) noOptions false ∅ [];
                     s1 ← unbind s;
                     run [SetReference 1; SetReference 2] s1))
    by (vm_compute; eauto).
  destruct (started (Observable 0) noOptions false ∅ []) as [s|] eqn:Hs;
    [|by destruct Hreturns].
  cbn [mbind option_bind] in Hreturns.
  destruct (unbind s) as [s1|] eqn:Hs1; [|by destruct Hreturns].
  cbn [mbind option_bind] in Hreturns.
  destruct (run [SetReference 1; SetReference 2] s1) as [s2|] eqn:Hrun;
    [|by destruct Hreturns].
  exists s, s1, s2. split; [reflexivity|]. split; [exact Hs1|].
  split; [exact Hrun|].
  exact (unbind_ends_binding s s1 _ s2 Hs1 Hrun).
Defined.

(** X13.  [unbind()] has no guard of its own: each call calls the current
    unbind procedure once more with the [reset] of the options, so [n] calls
    make [n] calls of the procedure. *)
Theorem unbind_calls_each_time s h (n : nat) :
  _unbind (ctl s) = Some h →
  ∃ s', run (replicate n Unbind) s = Some s'
        ∧ unbindCalls (env s')
          = unbindCalls (env s) ++ replicate n (h, reset (options (ctl s))).
Proof.
  revert s. induction n as [|n IH]; intros s Hh.
  - exists s. by rewrite app_nil_r.
  - destruct (unbind_effect s h Hh) as (s1 & Hs1 & Hh1 & Ho & Hcalls).
    destruct (IH s1 Hh1) as (s' & Hrun & Hcalls').
    exists s'. split; [simpl; by rewrite Hs1|].
    by rewrite Hcalls', Hcalls, Ho, <- app_assoc.
Qed.

Lemma unbind_calls_each_time_witness :
  ∃ s, started (Plain 0) noOptions false ∅ [] = Some s
       ∧ _unbind (ctl s) = Some 0
       ∧ ∃ s', run (replicate 2 Unbind) s = Some s'
               ∧ unbindCalls (env s')
                 = unbindCalls (env s)
                   ++ replicate 2 (0, reset (options (ctl s))).
Proof.
  assert (Hcurrent :
            (s ← started (Plain 0) noOptions false ∅ []; _unbind (ctl s))
            = Some 0) by (vm_compute; reflexivity).
  destruct (started (Plain 0) noOptions false ∅ []) as [s|] eqn:Hs;
    [|discriminate].
  cbn [mbind option_bind] in Hcurrent.
  exists s. split; [reflexivity|]. split; [exact Hcurrent|].
  exact (unbind_calls_each_time s 0 2 Hcurrent).
Defined.

(** ** More on setting up *)

Section SetupHeap.

(** The heap [setup] leaves has every cell of the heap it got, as it was, and
    the state cells are not among them, nor is the container unless it is the
    target. *)
Lemma setup_heap given opts scope h0 :
  (∀ l o, h0 !! l = Some o → heap (env (setup given opts scope h0)) !! l = Some o)
  ∧ h0 !! error (ctl (setup given opts scope h0)) = None
  ∧ h0 !! pending (ctl (setup given opts scope h0)) = None
  ∧ h0 !! promise (ctl (setup given opts scope h0)) = None
  ∧ match target opts with
    | PropValue t => data (ctl (setup given opts scope h0)) = t
    | PropAbsent | PropUndefined =>
        h0 !! data (ctl (setup given opts scope h0)) = None
    end.
Proof.
  unfold setup.
  destruct (match target opts with
            | PropValue t => (t, h0)
            | _ => ref (initialValue opts) h0
            end) as [d h1] eqn:Hd.
  assert (Hd1 : (∀ l o, h0 !! l = Some o → h1 !! l = Some o)
                ∧ match target opts with
                  | PropValue t => d = t
                  | PropAbsent | PropUndefined => h0 !! d = None
                  end).
  { destruct (target opts) as [| |t].
    - apply ref_spec in Hd as [Hfresh ->]. split; [|done].
      intros l o Hl. rewrite lookup_insert_ne; [done|congruence].
    - apply ref_spec in Hd as [Hfresh ->]. split; [|done].
      intros l o Hl. rewrite lookup_insert_ne; [done|congruence].
    - by injection Hd as <- <-. }
  clear Hd. destruct Hd1 as [Hold Hdata].
  destruct (ref VUndefined h1) as [e h2] eqn:He. apply ref_spec in He as [He ->].
  destruct (ref (VBool true) _) as [p h3] eqn:Hp. apply ref_spec in Hp as [Hp ->].
  destruct (ref VUndefined _) as [q h4] eqn:Hq. apply ref_spec in Hq as [Hq ->].
  assert (Hnew : ∀ l, h0 !! l = None ∨ ∃ o, h0 !! l = Some o)
    by (intros l; destruct (h0 !! l); eauto).
  assert (Hpe : p ≠ e) by (intros ->; by rewrite lookup_insert_eq in Hp).
  assert (Hqp : q ≠ p) by (intros ->; by rewrite lookup_insert_eq in Hq).
  assert (Hqe : q ≠ e)
    by (intros ->; rewrite lookup_insert_ne, lookup_insert_eq in Hq by done; done).
  rewrite lookup_insert_ne in Hp by done.
  rewrite !lookup_insert_ne in Hq by done.
  simpl. split; [|split; [|split; [|split; [|done]]]].
  - intros l o Hl. pose proof (Hold l o Hl) as Hl1.
    rewrite !lookup_insert_ne; [done|congruence..].
  - destruct (Hnew e) as [|[o Ho]]; [done|]. apply Hold in Ho. congruence.
  - destruct (Hnew p) as [|[o Ho]]; [done|]. apply Hold in Ho. congruence.
  - destruct (Hnew q) as [|[o Ho]]; [done|]. apply Hold in Ho. congruence.
Qed.

(** The heap a call of [_useDatabaseRef] leaves, against the heap of
    [setup]. *)
Lemma useDatabaseRef_heap given opts scope h0 handle s :
  _useDatabaseRef given opts scope h0 = Some (handle, s) →
  handle = data (ctl (setup given opts scope h0))
  ∧ error (ctl s) = error (ctl (setup given opts scope h0))
  ∧ pending (ctl s) = pending (ctl (setup given opts scope h0))
  ∧ promise (ctl s) = promise (ctl (setup given opts scope h0))
  ∧ ∀ l, l ≠ handle → l ≠ promise (ctl s) →
      heap (env s) !! l = heap (env (setup given opts scope h0)) !! l.
Proof.
  unfold _useDatabaseRef. set (s0 := setup given opts scope h0).
  set (s1 := if isRef given then watchImmediate s0 else bindDatabaseRef s0).
  assert (Hs1 : data (ctl s1) = data (ctl s0) ∧ error (ctl s1) = error (ctl s0)
                ∧ pending (ctl s1) = pending (ctl s0)
                ∧ promise (ctl s1) = promise (ctl s0)
                ∧ ∀ l, l ≠ promise (ctl s0) →
                    heap (env s1) !! l = heap (env s0) !! l).
  { unfold s1. destruct (isRef given); unfold watchImmediate; simpl;
      (repeat split;
       [unfold bindDatabaseRef; by destruct (isArray _)..
       |intros l Hl; by apply bindDatabaseRef_frame]). }
  destruct Hs1 as (Hd & He & Hp & Hq & Hheap).
  unfold defineProperties.
  destruct (heap (env s1) !! data (ctl s1)) as [o|];
    cbn [mbind option_bind]; [|done].
  destruct (definePropertiesOn o (handleProps (ctl s1))) as [o'|];
    cbn [mbind option_bind]; [|done].
  intros [= <- <-]. simpl. rewrite Hd, He, Hp, Hq.
  repeat split; try done.
  intros l Hl Hlq. rewrite lookup_insert_ne by done. by apply Hheap.
Qed.

End SetupHeap.

(** X14.  A call of [_useDatabaseRef] leaves every cell the heap had, other
    than the target, as it was, and the cells [error], [pending] and [promise]
    it makes are new cells; so is the container when the options give no
    target. *)
Theorem useDatabaseRef_leaves_heap given opts scope h0 handle s :
  _useDatabaseRef given opts scope h0 = Some (handle, s) →
  (∀ l o, h0 !! l = Some o → l ≠ handle → heap (env s) !! l = Some o)
  ∧ h0 !! error (ctl s) = None
  ∧ h0 !! pending (ctl s) = None
  ∧ h0 !! promise (ctl s) = None
  ∧ ((∀ t, target opts ≠ PropValue t) → h0 !! handle = None).
Proof.
  intros Hs.
  destruct (useDatabaseRef_heap _ _ _ _ _ _ Hs) as (-> & -> & -> & Hq & Hheap).
  destruct (setup_heap given opts scope h0) as (Hold & He & Hp & Hq0 & Hdata).
  rewrite Hq in Hheap. rewrite Hq.
  split; [|repeat split; try done].
  - intros l o Hl Hne. rewrite Hheap; [by apply Hold|done|congruence].
  - intros Hno. destruct (target opts) as [| |t]; [done..|]. by destruct (Hno t).
Qed.

Lemma useDatabaseRef_leaves_heap_witness :
  ∃ handle s,
    _useDatabaseRef (Plain 0) noOptions false {[ 5 := plainCell (VNum 1) ]}
    = Some (handle, s)
    ∧ heap (env s) !! 5 = Some (plainCell (VNum 1))
    ∧ ({[ 5 := plainCell (VNum 1) ]} : gmap loc RefObj) !! handle = None.
Proof.
  eexists. eexists. split; [reflexivity|].
  lazymatch goal with
  | |- heap (env ?s) !! _ = _ ∧ _ !! ?handle = _ =>
      assert (Hs : _useDatabaseRef (Plain 0) noOptions false
                     {[ 5 := plainCell (VNum 1) ]} = Some (handle, s))
        by (vm_compute; reflexivity);
      pose proof (useDatabaseRef_leaves_heap _ _ _ _ _ _ Hs)
        as (Hold & _ & _ & _ & Hnew)
  end.
  split.
  - apply Hold; [reflexivity|]. vm_compute. discriminate.
  - apply Hnew. intros t. discriminate.
Defined.

Section NoTarget.

Lemma without_target_spec given opts scope h0 :
  (∀ t, target opts ≠ PropValue t) →
  ∃ s, _useDatabaseRef given opts scope h0 = Some (data (ctl s), s)
       ∧ h0 !! data (ctl s) = None
       ∧ readValue (data (ctl s)) (heap (env s)) = initialValue opts
       ∧ boundKinds s = [if isArray (initialValue opts) then AsArray else AsObject].
Proof.
  intros Hno.
  assert (Hacc : targetAccepts opts h0).
  { unfold targetAccepts. destruct (target opts) as [| |t]; [done..|].
    by destruct (Hno t). }
  destruct (construct given opts scope h0 Hacc) as (s & Hs & Hup).
  exists s. split; [done|].
  pose proof (su_container _ _ _ _ _ Hup) as Hheld.
  assert (Hinit : readValue (data (ctl s)) (heap (env s)) = initialValue opts).
  { rewrite Hheld. destruct (target opts) as [| |t]; [done..|]. by destruct (Hno t). }
  split; [|split; [done|]].
  - destruct (useDatabaseRef_heap _ _ _ _ _ _ Hs) as (-> & _).
    destruct (setup_heap given opts scope h0) as (_ & _ & _ & _ & Hdata).
    destruct (target opts) as [| |t]; [done..|]. by destruct (Hno t).
  - by rewrite (setUp_boundKinds _ _ _ _ _ Hup), Hinit.
Qed.

End NoTarget.

(** X15.  Without a [target] in the options, [undefined] counting as none,
    [_useDatabaseRef] always returns; the container is a new cell holding
    [initialValue], and the binder is chosen by the shape of
    [initialValue]: the array binder for an array, the object binder for
    anything else, [undefined] included. *)
Theorem without_target_initialValue given opts scope h0 :
  (∀ t, target opts ≠ PropValue t) →
  ∃ handle s,
    _useDatabaseRef given opts scope h0 = Some (handle, s)
    ∧ h0 !! handle = None
    ∧ readValue handle (heap (env s)) = initialValue opts
    ∧ boundKinds s = [if isArray (initialValue opts) then AsArray else AsObject].
Proof.
  intros Hno.
  destruct (without_target_spec given opts scope h0 Hno) as (s & Hs & Hrest).
  by exists (data (ctl s)), s.
Qed.

Lemma without_target_initialValue_witness :
  (∀ t, target {| target := PropUndefined; initialValue := VArray [VNum 1];
                  reset := ResetUndefined |} ≠ PropValue t)
  ∧ ∃ handle s,
      _useDatabaseRef (Plain 0)
        {| target := PropUndefined; initialValue := VArray [VNum 1];
           reset := ResetUndefined |} false ∅ = Some (handle, s)
      ∧ readValue handle (heap (env s)) = VArray [VNum 1]
      ∧ boundKinds s = [AsArray].
Proof.
  assert (Hno : ∀ t, target {| target := PropUndefined;
                               initialValue := VArray [VNum 1];
                               reset := ResetUndefined |} ≠ PropValue t)
    by (intros t; discriminate).
  split; [exact Hno|].
  destruct (without_target_initialValue (Plain 0) _ false ∅ Hno)
    as (handle & s & Hs & _ & Hheld & Hkinds).
  exists handle, s. split; [exact Hs|]. split; [exact Hheld | exact Hkinds].
Defined.

(** X16.  An [undefined] [target] in the options of [useList] or [useObject]
    discards the container the entry point made: both entry points then bind
    a new cell holding [initialValue], with the binder chosen by the shape of
    [initialValue], so that [useList] binds as an object unless
    [initialValue] is an array. *)
Theorem entry_points_undefined_target given o scope h0 :
  target o = PropUndefined →
  (∃ s, useList given (Some o) scope h0 = Some (data (ctl s), s)
        ∧ readValue (data (ctl s)) (heap (env s)) = initialValue o
        ∧ boundKinds s = [if isArray (initialValue o) then AsArray else AsObject])
  ∧ (∃ s, useObject given (Some o) scope h0 = Some (data (ctl s), s)
          ∧ readValue (data (ctl s)) (heap (env s)) = initialValue o
          ∧ boundKinds s = [if isArray (initialValue o) then AsArray else AsObject]).
Proof.
  intros Ho.
  assert (Hentry : ∀ empty,
            ∃ s, entryPoint empty given (Some o) scope h0 = Some (data (ctl s), s)
                 ∧ readValue (data (ctl s)) (heap (env s)) = initialValue o
                 ∧ boundKinds s
                   = [if isArray (initialValue o) then AsArray else AsObject]).
  { intros empty. unfold entryPoint.
    destruct (ref empty h0) as [d h1].
    destruct (without_target_spec given (spreadOver d (Some o)) scope h1)
      as (s & Hs & _ & Hheld & Hkinds).
    { intros t. simpl. rewrite Ho. discriminate. }
    exists s. by repeat split. }
  rewrite useList_entryPoint, useObject_entryPoint. split; apply Hentry.
Qed.

Lemma entry_points_undefined_target_witness :
  target {| target := PropUndefined; initialValue := VNum 5;
            reset := ResetUndefined |} = PropUndefined
  ∧ ∃ s, useList (Plain 0)
           (Some {| target := PropUndefined; initialValue := VNum 5;
                    reset := ResetUndefined |}) false ∅ = Some (data (ctl s), s)
         ∧ readValue (data (ctl s)) (heap (env s)) = VNum 5
         ∧ boundKinds s = [AsObject].
Proof.
  split; [reflexivity|].
  exact (proj1 (entry_points_undefined_target (Plain 0)
                  {| target := PropUndefined; initialValue := VNum 5;
                     reset := ResetUndefined |} false ∅ eq_refl)).
Defined.

(** ** More on the registry *)

(** X17.  [internalUnbind] touches the entry of its key only: every other
    entry of the registry stays, and an [undefined] registry stays
    [undefined], also when the call raises. *)
Theorem internalUnbind_other_keys key (unbinds : option (gmap string UnbindType))
    reset w k :
  k ≠ key →
  ((internalUnbind key unbinds reset w).1.1 ≫= (.!! k)) = (unbinds ≫= (.!! k))
  ∧ (is_Some (internalUnbind key unbinds reset w).1.1 ↔ is_Some unbinds).
Proof.
  intros Hk. unfold internalUnbind.
  destruct unbinds as [record|]; [|done].
  destruct (record !! key) as [h|]; simpl.
  - rewrite lookup_delete_ne by done. split; [done|]. split; eauto.
  - destruct (objectPrototype !! key) as [[]|];
      try destruct (record !! "toString"); simpl;
      (split; [done|]; split; eauto).
Qed.

Lemma internalUnbind_other_keys_witness :
  "b" ≠ "a"
  ∧ ∀ w, (internalUnbind "a" (Some {[ "a" := 0; "b" := 1 ]}) ResetUndefined w).1.1
         ≫= (.!! "b")
         = Some 1.
Proof.
  split; [discriminate|]. intros w.
  rewrite (proj1 (internalUnbind_other_keys "a" (Some {[ "a" := 0; "b" := 1 ]})
                    ResetUndefined w "b" ltac:(discriminate))).
  reflexivity.
Defined.

(** X18.  The exported [unbind] pops the entry with the empty key of the
    registry of its target: when that registry has a procedure for the empty
    key, the procedure is called once, with [reset], and the entry is removed
    from that registry; when the registry has no such entry, or the target
    has no registry, nothing is done.  The call never raises.  The registries
    of the other cells and the other entries of the registry of the target
    stay, and a second call right after does nothing. *)
Theorem exported_unbind_pops rtdbUnbinds target reset w :
  (∀ record h, rtdbUnbinds !! target = Some record → record !! "" = Some h →
     Exports.unbind rtdbUnbinds target reset w
     = (<[target := delete "" record]> rtdbUnbinds, callUnbind h reset w,
        Returns)
     ∧ unbindCalls (callUnbind h reset w) = unbindCalls w ++ [(h, reset)])
  ∧ (∀ record, rtdbUnbinds !! target = Some record → record !! "" = None →
       Exports.unbind rtdbUnbinds target reset w = (rtdbUnbinds, w, Returns))
  ∧ (rtdbUnbinds !! target = None →
     Exports.unbind rtdbUnbinds target reset w = (rtdbUnbinds, w, Returns))
  ∧ (Exports.unbind rtdbUnbinds target reset w).2 = Returns
  ∧ (∀ t, t ≠ target →
       (Exports.unbind rtdbUnbinds target reset w).1.1 !! t = rtdbUnbinds !! t)
  ∧ (∀ k, k ≠ "" →
       ((Exports.unbind rtdbUnbinds target reset w).1.1 !! target ≫= (.!! k))
       = (rtdbUnbinds !! target ≫= (.!! k)))
  ∧ (∀ reset' w',
       Exports.unbind (Exports.unbind rtdbUnbinds target reset w).1.1 target
         reset' w'
       = ((Exports.unbind rtdbUnbinds target reset w).1.1, w', Returns)).
Proof.
  unfold Exports.unbind, internalUnbind.
  replace (objectPrototype !! "") with (@None Inherited) by reflexivity.
  destruct (rtdbUnbinds !! target) as [record|] eqn:Hrecord.
  - destruct (record !! "") as [h|] eqn:Hkey; simpl.
    + split; [intros ? h' [= <-] Hh; rewrite Hkey in Hh;
              injection Hh as <-; split; [done | apply callUnbind_calls]|].
      split; [intros ? [= <-] Hh; by rewrite Hkey in Hh|].
      split; [done|]. split; [done|].
      split; [intros t Ht; by rewrite lookup_insert_ne|].
      split; [intros k Hk; rewrite lookup_insert_eq; simpl;
              by rewrite lookup_delete_ne|].
      intros reset' w'.
      rewrite lookup_insert_eq, lookup_delete_eq. simpl.
      by rewrite insert_insert_eq.
    + rewrite (insert_id _ _ _ Hrecord).
      split; [intros ? ? [= <-] Hh; by rewrite Hkey in Hh|].
      split; [done|]. split; [done|]. split; [done|].
      split; [done|]. split; [by intros k Hk; rewrite Hrecord|].
      intros reset' w'. rewrite Hrecord, Hkey. simpl.
      by rewrite (insert_id _ _ _ Hrecord).
  - simpl. split; [done|]. split; [done|]. split; [done|]. split; [done|].
    split; [done|]. split; [by intros k Hk; rewrite Hrecord|].
    intros reset' w'. by rewrite Hrecord.
Qed.

Lemma exported_unbind_pops_witness :
  ({[ 3 := {[ "" := 0; "b" := 1 ]} ]} : gmap loc (gmap string UnbindType)) !! 3
  = Some {[ "" := 0; "b" := 1 ]}
  ∧ ({[ "" := 0; "b" := 1 ]} : gmap string UnbindType) !! "" = Some 0
  ∧ "b" ≠ ""
  ∧ ∀ w, Exports.unbind {[ 3 := {[ "" := 0; "b" := 1 ]} ]} 3 ResetUndefined w
         = (<[ 3 := delete "" {[ "" := 0; "b" := 1 ]} ]>
              {[ 3 := {[ "" := 0; "b" := 1 ]} ]},
            callUnbind 0 ResetUndefined w, Returns)
         ∧ unbindCalls (callUnbind 0 ResetUndefined w)
           = unbindCalls w ++ [(0, ResetUndefined)]
         ∧ ((Exports.unbind {[ 3 := {[ "" := 0; "b" := 1 ]} ]} 3
               ResetUndefined w).1.1 !! 3 ≫= (.!! "b"))
           = Some 1.
Proof.
  assert (Hregistry :
    ({[ 3 := {[ "" := 0; "b" := 1 ]} ]} : gmap loc (gmap string UnbindType)) !! 3
    = Some {[ "" := 0; "b" := 1 ]}) by reflexivity.
  assert (Hentry : ({[ "" := 0; "b" := 1 ]} : gmap string UnbindType) !! ""
                   = Some 0) by reflexivity.
  split; [exact Hregistry|]. split; [exact Hentry|].
  split; [discriminate|]. intros w.
  destruct (proj1 (exported_unbind_pops {[ 3 := {[ "" := 0; "b" := 1 ]} ]}
                     3 ResetUndefined w)
              {[ "" := 0; "b" := 1 ]} 0 Hregistry Hentry) as [Hcall Hcalls].
  split; [exact Hcall|]. split; [exact Hcalls|].
  rewrite (proj1 (proj2 (proj2 (proj2 (proj2 (proj2
             (exported_unbind_pops {[ 3 := {[ "" := 0; "b" := 1 ]} ]}
                3 ResetUndefined w))))))
             "b" ltac:(discriminate)).
  reflexivity.
Defined.
